(** * Content extraction of browser-content.js

    A shallow embedding of [cleanText], [fallbackExtraction] and
    [extractContent] from
    plugins/browser-automation-lite/skills/browser-automation-lite/scripts/browser-content.js
    together with the parts of the JavaScript string, RegExp and DOM
    semantics those functions rely on. *)

From Stdlib Require Import String Ascii DecimalString.
From stdpp Require Import base numbers list option gmap.

Set Default Proof Using "Type".
Local Open Scope N_scope.

(** ** JavaScript strings

    A JavaScript string is a sequence of UTF-16 code units.  None of the
    regular expressions of the script carries the [u] flag, so matching,
    [length] and [trim] all work on code units. *)

Abbreviation js_string := (list N).

Fixpoint js (s : string) : js_string :=
  match s with
  | EmptyString => []
  | String c s' => N_of_ascii c :: js s'
  end.

Definition LF : N := 10.
Definition SPACE : N := 32.
Definition LPAREN : N := 40.
Definition RPAREN : N := 41.

(** [\s] of a RegExp and the characters stripped by [String.prototype.trim]:
    the WhiteSpace and LineTerminator productions of ECMAScript (TAB, LF, VT,
    FF, CR, SP, NBSP, the Unicode space separators, LS, PS and ZWNBSP). *)
Definition is_space (c : N) : bool :=
  ((9 <=? c) && (c <=? 13))
  || (c =? 32) || (c =? 160) || (c =? 5760)
  || ((8192 <=? c) && (c <=? 8202))
  || (c =? 8232) || (c =? 8233) || (c =? 8239) || (c =? 8287)
  || (c =? 12288) || (c =? 65279).

(** ** Regular expressions

    The three patterns of [cleanText] are sequences of single-character
    atoms, each taken once, or under a greedy [*] or [+].  [match_here]
    is the backtracking matcher anchored at the head of its input; it
    returns the number of code units of the match the engine finds first. *)

Inductive quantifier := One | Star | Plus.

Record atom := Atom { atom_class : N -> bool; atom_quant : quantifier }.

Abbreviation regex := (list atom).

Definition succ_match (r : option nat) : option nat :=
  match r with Some n => Some (S n) | None => None end.

Fixpoint match_here (re : regex) : js_string -> option nat :=
  match re with
  | [] => fun _ => Some O
  | Atom c q :: re' =>
      let k := match_here re' in
      let star :=
        fix star (s : js_string) : option nat :=
          match s with
          | x :: s' =>
              if c x then
                match star s' with
                | Some n => Some (S n)
                | None => k s
                end
              else k s
          | [] => k []
          end in
      match q with
      | One => fun s =>
          match s with
          | x :: s' => if c x then succ_match (k s') else None
          | [] => None
          end
      | Star => star
      | Plus => fun s =>
          match s with
          | x :: s' => if c x then succ_match (star s') else None
          | [] => None
          end
      end
  end.

(** [RegExp.prototype.test] without the sticky flag: is there a match
    at some position? *)
Fixpoint regex_test (re : regex) (s : js_string) : bool :=
  match match_here re s with
  | Some _ => true
  | None => match s with [] => false | _ :: s' => regex_test re s' end
  end.

(** [String.prototype.replace] with a global pattern and a replacement
    free of [$] patterns.  The input is scanned from left to right; [skip]
    counts the code units of the current match that are still to be
    dropped.  After an empty match the scan moves on by one code unit. *)
Fixpoint replace_from (re : regex) (rep : js_string) (skip : nat)
    (s : js_string) : js_string :=
  match s with
  | [] =>
      match skip, match_here re [] with
      | O, Some _ => rep
      | _, _ => []
      end
  | x :: s' =>
      match skip with
      | S k => replace_from re rep k s'
      | O =>
          match match_here re s with
          | Some (S n) => rep ++ replace_from re rep n s'
          | Some O => rep ++ x :: replace_from re rep O s'
          | None => x :: replace_from re rep O s'
          end
      end
  end.

Definition replace_all (re : regex) (rep s : js_string) : js_string :=
  replace_from re rep O s.

(** [String.prototype.trim]. *)
Fixpoint trimStart (s : js_string) : js_string :=
  match s with
  | x :: s' => if is_space x then trimStart s' else s
  | [] => []
  end.

Definition trimEnd (s : js_string) : js_string := rev (trimStart (rev s)).

Definition trim (s : js_string) : js_string := trimEnd (trimStart s).

(** ** cleanText *)

(** [/\(\s*\)/g] *)
Definition re_empty_parens : regex :=
  [Atom (N.eqb LPAREN) One; Atom is_space Star; Atom (N.eqb RPAREN) One].

(** [/\s+/g] *)
Definition re_spaces : regex := [Atom is_space Plus].

(** [/\n\s*\n\s*\n/g] *)
Definition re_blank_lines : regex :=
  [Atom (N.eqb LF) One; Atom is_space Star; Atom (N.eqb LF) One;
   Atom is_space Star; Atom (N.eqb LF) One].

Definition cleanText (text : js_string) : js_string :=
  trim
    (replace_all re_blank_lines [LF; LF]
       (replace_all re_spaces [SPACE]
          (replace_all re_empty_parens [] text))).


(** ** The DOM as jsdom presents it

    Only what the script touches: the tree of a parsed document, simple
    selectors, [textContent], [document.body] and [document.title]. *)

Inductive namespace := HTML | SVG | MathML.

Unset Elimination Schemes.
Inductive node :=
  | Text (data : js_string)
  | Comment (data : js_string)
  | Element (ns : namespace) (localName : js_string)
      (attributes : list (js_string * js_string)) (childNodes : list node).
Set Elimination Schemes.

(** A document: its mode and its child nodes (comments and the document
    element; the doctype only matters through the mode). *)
Record Document := {
  quirks : bool;
  doc_childNodes : list node
}.

Definition is_element (n : node) : bool :=
  match n with Element _ _ _ _ => true | _ => false end.

Definition str_eqb (a b : js_string) : bool := bool_decide (a = b).

Fixpoint getAttribute (name : js_string)
    (attrs : list (js_string * js_string)) : option js_string :=
  match attrs with
  | [] => None
  | (k, v) :: attrs' => if str_eqb k name then Some v else getAttribute name attrs'
  end.

(** ASCII whitespace of the DOM and HTML standards: TAB, LF, FF, CR, SP. *)
Definition is_ascii_whitespace (c : N) : bool :=
  (c =? 9) || (c =? 10) || (c =? 12) || (c =? 13) || (c =? 32).

(** Split on ASCII whitespace; [cur] is the token being read, reversed. *)
Fixpoint split_on_whitespace (cur s : js_string) : list js_string :=
  match s with
  | [] => match cur with [] => [] | _ => [rev cur] end
  | x :: s' =>
      if is_ascii_whitespace x then
        match cur with
        | [] => split_on_whitespace [] s'
        | _ => rev cur :: split_on_whitespace [] s'
        end
      else split_on_whitespace (x :: cur) s'
  end.

Definition classList (attrs : list (js_string * js_string)) : list js_string :=
  match getAttribute (js "class") attrs with
  | Some v => split_on_whitespace [] v
  | None => []
  end.

(** The simple selectors that occur in the script. *)
Inductive simple_selector :=
  | SelType (name : js_string)                 (* [main] *)
  | SelClass (name : js_string)                (* [.content] *)
  | SelId (name : js_string)                   (* [#content] *)
  | SelAttr (name value : js_string).          (* [[role="main"]] *)

(** A selector list [a, b, c]. *)
Abbreviation selector := (list simple_selector).

(** What a selector engine decides about one element: given the mode of
    the document and a selector list, whether the element with this
    namespace, local name and attributes is matched.  The selectors of the
    script have no combinators and no structural pseudo-classes, so nothing
    else of the document is looked at.  How names, classes, ids and
    attribute values are compared is the engine's business. *)
Definition matcher : Type :=
  bool -> selector -> namespace -> js_string ->
  list (js_string * js_string) -> bool.

Definition matches (m : matcher) (q : bool) (sel : selector) (n : node) : bool :=
  match n with
  | Element ns name attrs _ => m q sel ns name attrs
  | _ => false
  end.

(** The elements of a subtree in tree order, the root first. *)
Fixpoint elements_of (n : node) : list node :=
  match n with
  | Element _ _ _ children => n :: flat_map elements_of children
  | _ => []
  end.

Definition document_elements (d : Document) : list node :=
  flat_map elements_of (doc_childNodes d).

(** [querySelectorAll]: the elements the engine matches, in tree order. *)
Definition querySelectorAll (m : matcher) (sel : selector) (d : Document)
    : list node :=
  List.filter (matches m (quirks d) sel) (document_elements d).

(** [querySelector]: the first element, in tree order, that the engine
    matches. *)
Definition querySelector (m : matcher) (sel : selector) (d : Document)
    : option node :=
  head (List.filter (matches m (quirks d) sel) (document_elements d)).

(** [textContent]: for an element the data of its Text descendants in
    tree order, comments left out. *)
Fixpoint descendant_text (n : node) : js_string :=
  match n with
  | Text data => data
  | Comment _ => []
  | Element _ _ _ children => flat_map descendant_text children
  end.

Definition textContent (n : node) : js_string :=
  match n with
  | Text data | Comment data => data
  | Element _ _ _ _ => descendant_text n
  end.

(** [querySelectorAll(sel).forEach(el => el.remove())]: every matching
    element is detached from its parent.  The list is static and in tree
    order, so a matching element nested in another one is detached from
    a subtree that has already left the document.  What remains of the
    document is the tree without the matching elements and everything
    below them. *)
Fixpoint remove_matching (p : node -> bool) (n : node) : node :=
  match n with
  | Element ns name attrs children =>
      Element ns name attrs
        (flat_map (fun c => if p c then [] else [remove_matching p c]) children)
  | _ => n
  end.

Definition remove_all (m : matcher) (sel : selector) (d : Document)
    : Document :=
  let p := matches m (quirks d) sel in
  {| quirks := quirks d;
     doc_childNodes :=
       flat_map (fun c => if p c then [] else [remove_matching p c])
         (doc_childNodes d) |}.

Definition documentElement (d : Document) : option node :=
  head (List.filter is_element (doc_childNodes d)).

Definition is_html_element (name : js_string) (n : node) : bool :=
  match n with
  | Element HTML l _ _ => str_eqb l name
  | _ => false
  end.

(** [document.body]: the first child of the [html] document element
    that is a [body] or a [frameset]. *)
Definition body (d : Document) : option node :=
  match documentElement d with
  | Some (Element HTML name _ children) =>
      if str_eqb name (js "html") then
        head (List.filter
                (fun c => is_html_element (js "body") c
                          || is_html_element (js "frameset") c) children)
      else None
  | _ => None
  end.

(** Child text content: the data of the Text children. *)
Definition child_text_content (n : node) : js_string :=
  match n with
  | Element _ _ _ children =>
      flat_map (fun c => match c with Text data => data | _ => [] end) children
  | _ => []
  end.

Fixpoint join_with_space (l : list js_string) : js_string :=
  match l with
  | [] => []
  | [t] => t
  | t :: l' => t ++ SPACE :: join_with_space l'
  end.

(** Strip and collapse ASCII whitespace. *)
Definition strip_and_collapse (s : js_string) : js_string :=
  join_with_space (split_on_whitespace [] s).

(** The title element of a document: its first HTML [title] element in
    tree order.  When the document element is an SVG [svg] element, the
    first SVG [title] child of it instead. *)
Definition title_element (d : Document) : option node :=
  match documentElement d with
  | Some (Element SVG name _ children) =>
      if str_eqb name (js "svg") then
        head (List.filter
                (fun c => match c with
                          | Element SVG l _ _ => str_eqb l (js "title")
                          | _ => false
                          end) children)
      else head (List.filter (is_html_element (js "title")) (document_elements d))
  | _ => head (List.filter (is_html_element (js "title")) (document_elements d))
  end.

(** The [document.title] getter. *)
Definition document_title (d : Document) : js_string :=
  match title_element d with
  | Some e => strip_and_collapse (child_text_content e)
  | None => []
  end.

(** ** Objects, exceptions and the libraries

    Every [new JSDOM(...)] creates a document object of its own, which
    the code that holds it then mutates in place.  Documents live in a
    store indexed by references; a computation takes the store and returns
    a value or a thrown [Error], and the store it leaves. *)

Record Error := { message : js_string }.

Inductive outcome (A : Type) :=
  | Returned (a : A)
  | Thrown (e : Error).
Arguments Returned {A} a.
Arguments Thrown {A} e.

Abbreviation ref := nat.
Abbreviation store := (gmap nat Document).

Definition M (A : Type) : Type := store -> outcome A * store.

Definition ret {A} (a : A) : M A := fun h => (Returned a, h).

Definition throw {A} (e : Error) : M A := fun h => (Thrown e, h).

Definition bind {A B} (m : M A) (f : A -> M B) : M B :=
  fun h =>
    match m h with
    | (Returned a, h') => f a h'
    | (Thrown e, h') => (Thrown e, h')
    end.

Notation "'let*' x ':=' m 'in' k" := (bind m (fun x => k))
  (at level 10, x name, m at level 100, k at level 200).
Notation "m ';;' k" := (bind m (fun _ => k))
  (at level 100, k at level 200, right associativity).

Definition alloc (d : Document) : M ref :=
  fun h => let r := fresh (dom h) in (Returned r, <[r := d]> h).

(** Reading through a reference that names no object cannot happen in
    the script; it is reported as an error of its own. *)
Definition dangling : Error := {| message := js "dangling reference" |}.

Definition get_document (r : ref) : M Document :=
  fun h =>
    match h !! r with
    | Some d => (Returned d, h)
    | None => (Thrown dangling, h)
    end.

Definition set_document (r : ref) (d : Document) : M unit :=
  fun h => (Returned tt, <[r := d]> h).

(** What [reader.parse()] returns when it is not [null]. *)
Record Article := {
  article_title : js_string;
  article_content : js_string
}.

Inductive HeadingStyle := setext | atx.
Inductive CodeBlockStyle := indented | fenced.
Inductive TurndownPlugin := gfm.

Record TurndownOptions := {
  headingStyle : HeadingStyle;
  codeBlockStyle : CodeBlockStyle;
  plugins : list TurndownPlugin
}.

(** The npm packages the script imports, as the stateless services they
    are: jsdom's HTML parser, Readability's [parse] (which also edits the
    document it is given), Turndown's [turndown], and jsdom's selector
    engines, the one behind [querySelectorAll] and the one behind
    [querySelector]. *)
Record Libraries := {
  jsdom_parse : js_string -> js_string -> Document;
  readability_parse : Document -> option Article * Document;
  turndown : TurndownOptions -> js_string -> js_string;
  selector_all : matcher;
  selector_first : matcher
}.

(** [new JSDOM(html, { url })] *)
Definition new_JSDOM (L : Libraries) (html url : js_string) : M ref :=
  alloc (jsdom_parse L html url).

(** [new Readability(doc).parse()] on the document held by [r]. *)
Definition Readability_parse (L : Libraries) (r : ref) : M (option Article) :=
  let* d := get_document r in
  set_document r (snd (readability_parse L d)) ;;
  ret (fst (readability_parse L d)).

(** What [page.goto(url, ...)], [page.url()] and [page.content()] give:
    a rejection, or the final URL and the serialized document. *)
Inductive navigation :=
  | Rejected (e : Error)
  | Loaded (finalUrl html : js_string).

Abbreviation Page := (js_string -> navigation).

(** ** fallbackExtraction *)

(** ['script, style, nav, header, footer, aside, .navigation, .menu, .sidebar'] *)
Definition unwanted : selector :=
  [SelType (js "script"); SelType (js "style"); SelType (js "nav");
   SelType (js "header"); SelType (js "footer"); SelType (js "aside");
   SelClass (js "navigation"); SelClass (js "menu"); SelClass (js "sidebar")].

(** [a || b] on values that are an object or [null]. *)
Definition or_else {A} (a b : option A) : option A :=
  match a with
  | Some _ => a
  | None => b
  end.
Infix "<||>" := or_else (at level 55, right associativity).

Definition mainContent (L : Libraries) (doc : Document) : option node :=
  querySelector (selector_first L) [SelType (js "main")] doc <||>
  querySelector (selector_first L) [SelType (js "article")] doc <||>
  querySelector (selector_first L) [SelAttr (js "role") (js "main")] doc <||>
  querySelector (selector_first L) [SelClass (js "content")] doc <||>
  querySelector (selector_first L) [SelId (js "content")] doc <||>
  body doc.

Definition fallbackExtraction (L : Libraries) (html url : js_string) : M js_string :=
  let* dom := new_JSDOM L html url in
  let* doc := get_document dom in
  let doc := remove_all (selector_all L) unwanted doc in
  set_document dom doc ;;
  let text :=
    match mainContent L doc with
    | Some el => textContent el
    | None => []
    end in
  ret (cleanText text).

(** ** extractContent *)

Definition MIN_CONTENT_LENGTH : nat := 100.

(** Number-to-string conversion of a length. *)
Definition decimal (n : nat) : js_string :=
  js (NilEmpty.string_of_uint (Nat.to_uint n)).

Record ExtractionResult := {
  finalUrl : js_string;
  title : js_string;
  content : js_string
}.

Definition insufficient_content (len : nat) : Error :=
  {| message :=
       js "Insufficient content extracted (" ++ decimal len
       ++ js " chars, minimum " ++ decimal MIN_CONTENT_LENGTH ++ js ")" |}.

Definition turndown_options : TurndownOptions :=
  {| headingStyle := atx; codeBlockStyle := fenced; plugins := [gfm] |}.

Definition extractContent (L : Libraries) (page : Page) (url : js_string)
    : M ExtractionResult :=
  match page url with
  | Rejected e => throw e
  | Loaded finalUrl html =>
      let* dom := new_JSDOM L html finalUrl in
      let* article := Readability_parse L dom in
      let* tc :=
        match article with
        | Some a =>
            let content := turndown L turndown_options (article_content a) in
            ret (article_title a, cleanText content)
        | None =>
            let* doc := get_document dom in
            let title :=
              match document_title doc with
              | [] => js "Untitled"
              | t => t
              end in
            let* content := fallbackExtraction L html finalUrl in
            ret (title, content)
        end in
      let '(title, content) := tc in
      if (length content <? MIN_CONTENT_LENGTH)%nat
      then throw (insufficient_content (length content))
      else ret {| finalUrl := finalUrl; title := title; content := content |}
  end.

(** ** The pipeline without the store

    What [fallbackExtraction] and [extractContent] compute, written as
    plain functions of the libraries' answers; the lemmas
    [fallbackExtraction_run] and [extractContent_run] below relate the two
    views. *)

Definition fallback_root (L : Libraries) (html url : js_string) : option node :=
  mainContent L (remove_all (selector_all L) unwanted (jsdom_parse L html url)).

Definition fallback_text (L : Libraries) (html url : js_string) : js_string :=
  cleanText
    match fallback_root L html url with
    | Some el => textContent el
    | None => []
    end.

Definition title_or_untitled (doc : Document) : js_string :=
  match document_title doc with
  | [] => js "Untitled"
  | t => t
  end.

(** The article ([null] or not) and the document as Readability leaves it. *)
Definition primary (L : Libraries) (finalUrl html : js_string)
    : option Article * Document :=
  readability_parse L (jsdom_parse L html finalUrl).

Definition title_and_content (L : Libraries) (finalUrl html : js_string)
    : js_string * js_string :=
  match fst (primary L finalUrl html) with
  | Some a =>
      (article_title a,
       cleanText (turndown L turndown_options (article_content a)))
  | None =>
      (title_or_untitled (snd (primary L finalUrl html)),
       fallback_text L html finalUrl)
  end.

Definition quality_gate (finalUrl : js_string) (tc : js_string * js_string)
    : outcome ExtractionResult :=
  if (length (snd tc) <? MIN_CONTENT_LENGTH)%nat
  then Thrown (insufficient_content (length (snd tc)))
  else Returned {| finalUrl := finalUrl; title := fst tc; content := snd tc |}.

(** The store after a call: the document handed to Readability and, on
    the fallback path, the second document with the unwanted elements
    removed. *)
Definition final_store (L : Libraries) (finalUrl html : js_string) (h : store)
    : store :=
  let h1 := <[fresh (dom h) := snd (primary L finalUrl html)]> h in
  match fst (primary L finalUrl html) with
  | Some _ => h1
  | None =>
      <[fresh (dom h1) :=
          remove_all (selector_all L) unwanted (jsdom_parse L html finalUrl)]> h1
  end.

(** ** Vocabulary of the properties *)

(** Length of the whitespace run at the head of [s]. *)
Fixpoint ws_len (s : js_string) : nat :=
  match s with
  | x :: s' => if is_space x then S (ws_len s') else O
  | [] => O
  end.

Definition starts_nonspace (s : js_string) : Prop :=
  match s with
  | y :: _ => is_space y = false
  | [] => True
  end.

(** Every whitespace code unit is a plain space and is followed by a code
    unit that is not whitespace. *)
Fixpoint single_spaced (s : js_string) : Prop :=
  match s with
  | [] => True
  | x :: s' =>
      (is_space x = true -> x = SPACE /\ starts_nonspace s') /\ single_spaced s'
  end.

(** What [cleanText] produces: single-spaced, with no whitespace at
    either end. *)
Definition cleaned (s : js_string) : Prop :=
  single_spaced s /\ starts_nonspace s /\ starts_nonspace (rev s).

(** The line terminators of ECMAScript: LF, CR, LS, PS. *)
Definition is_line_terminator (c : N) : bool :=
  (c =? 10) || (c =? 13) || (c =? 8232) || (c =? 8233).

(** The lines of a text, split at line feeds; [cur] is the line being
    read, reversed. *)
Fixpoint lines_from (cur s : js_string) : list js_string :=
  match s with
  | [] => [rev cur]
  | x :: s' =>
      if x =? LF then rev cur :: lines_from [] s' else lines_from (x :: cur) s'
  end.

Definition lines (s : js_string) : list js_string := lines_from [] s.

Fixpoint starts_with (prefix s : js_string) : bool :=
  match prefix, s with
  | [], _ => true
  | p :: prefix', x :: s' => (p =? x) && starts_with prefix' s'
  | _ :: _, [] => false
  end.

(** [r] is the first candidate that is present, [None] when none is. *)
Inductive first_present {A : Type} : list (option A) -> option A -> Prop :=
  | first_present_nil : first_present [] None
  | first_present_here (a : A) (l : list (option A)) :
      first_present (Some a :: l) (Some a)
  | first_present_skip (l : list (option A)) (r : option A) :
      first_present l r -> first_present (None :: l) r.

Definition local_name (n : node) : js_string :=
  match n with
  | Element _ name _ _ => name
  | _ => []
  end.

(** The elements of a subtree that lie outside every element [p] matches,
    in tree order. *)
Fixpoint kept_elements (p : node -> bool) (n : node) : list node :=
  match n with
  | Element _ _ _ children =>
      if p n then [] else n :: flat_map (kept_elements p) children
  | _ => []
  end.

Definition kept_document_elements (p : node -> bool) (d : Document)
    : list node :=
  flat_map (kept_elements p) (doc_childNodes d).

(** The text of a subtree, in tree order, without the text inside the
    elements [p] matches. *)
Fixpoint kept_text (p : node -> bool) (n : node) : js_string :=
  match n with
  | Text data => data
  | Comment _ => []
  | Element _ _ _ children =>
      flat_map (fun c => if p c then [] else kept_text p c) children
  end.

(** Neither whitespace nor a parenthesis. *)
Definition is_plain (c : N) : bool :=
  negb (is_space c) && negb (c =? LPAREN) && negb (c =? RPAREN).

(** ** Sample pages

    Concrete pages with the answers of the libraries on them, for the
    examples below. *)

Module Samples.

Definition attr (name value : string) : js_string * js_string :=
  (js name, js value).

Definition el (name : string) (attrs : list (js_string * js_string))
    (children : list node) : node :=
  Element HTML (js name) attrs children.

Definition url : js_string := js "https://x.test/a".

(** [n] times the letter [x]. *)
Definition filler (n : nat) : js_string := repeat 120 n.

(** A selector engine for the sample pages: local names, class names, ids
    and attribute values are compared exactly.  The sample pages spell all
    of them in lower case, as the selectors of the script do, so no
    question of letter case arises on them. *)
Definition exact_simple (sel : simple_selector) (name : js_string)
    (attrs : list (js_string * js_string)) : bool :=
  match sel with
  | SelType t => str_eqb name t
  | SelClass c => existsb (str_eqb c) (classList attrs)
  | SelId i =>
      match getAttribute (js "id") attrs with
      | Some v => str_eqb v i
      | None => false
      end
  | SelAttr a v =>
      match getAttribute a attrs with
      | Some w => str_eqb w v
      | None => false
      end
  end.

Definition exact_matcher : matcher :=
  fun _ sel _ name attrs => existsb (fun s => exact_simple s name attrs) sel.

(** *** A short [main] before a long [article]

    Both are marked [aria-hidden], so that Readability drops them and
    finds no article. *)
Definition html_main_first : js_string :=
  js "<html><head><title>T</title></head><body><main aria-hidden=true>Hi</main><article aria-hidden=true>"
  ++ filler 120 ++ js "</article></body></html>".

Definition doc_main_first : Document :=
  {| quirks := true;
     doc_childNodes :=
       [el "html" []
          [el "head" [] [el "title" [] [Text (js "T")]];
           el "body" []
             [el "main" [attr "aria-hidden" "true"] [Text (js "Hi")];
              el "article" [attr "aria-hidden" "true"] [Text (filler 120)]]]] |}.

Definition libs_main_first : Libraries :=
  {| jsdom_parse := fun _ _ => doc_main_first;
     readability_parse := fun d => (None, d);
     turndown := fun _ _ => [];
     selector_all := exact_matcher;
     selector_first := exact_matcher |}.

Definition page_main_first : Page := fun _ => Loaded url html_main_first.

(** *** A [footer] and an [article], without a [title]

    Readability drops the hidden [article] and the [footer] and finds no
    article. *)
Definition html_article : js_string :=
  js "<html><head></head><body><footer>Home</footer><article aria-hidden=true>"
  ++ filler 120 ++ js "</article></body></html>".

Definition doc_article : Document :=
  {| quirks := true;
     doc_childNodes :=
       [el "html" []
          [el "head" [] [];
           el "body" []
             [el "footer" [] [Text (js "Home")];
              el "article" [attr "aria-hidden" "true"] [Text (filler 120)]]]] |}.

Definition libs_article : Libraries :=
  {| jsdom_parse := fun _ _ => doc_article;
     readability_parse := fun d => (None, d);
     turndown := fun _ _ => [];
     selector_all := exact_matcher;
     selector_first := exact_matcher |}.

Definition page_article : Page := fun _ => Loaded url html_article.

(** *** An article with a heading and a code block *)
Definition intro : string :=
  "This guide explains how to install the package and how to run it from the command line on every platform.".

Definition html_guide : js_string :=
  js "<html><head><title>Guide</title></head><body><article><p>" ++ js intro
  ++ js "</p><h2>Usage</h2><pre><code>npm install</code></pre></article></body></html>".

Definition doc_guide : Document :=
  {| quirks := true;
     doc_childNodes :=
       [el "html" []
          [el "head" [] [el "title" [] [Text (js "Guide")]];
           el "body" []
             [el "article" []
                [el "p" [] [Text (js intro)];
                 el "h2" [] [Text (js "Usage")];
                 el "pre" [] [el "code" [] [Text (js "npm install")]]]]]] |}.

(** The article Readability returns: the [article] element inside the
    wrapper [div] of id [readability-page-1] and class [page]. *)
Definition article_guide : Article :=
  {| article_title := js "Guide";
     article_content :=
       js "<div id=" ++ [34] ++ js "readability-page-1" ++ [34]
       ++ js " class=" ++ [34] ++ js "page" ++ [34] ++ js "><article><p>"
       ++ js intro
       ++ js "</p><h2>Usage</h2><pre><code>npm install</code></pre></article></div>" |}.

(** Turndown's Markdown for [article_guide] under [turndown_options]. *)
Definition markdown_guide : js_string :=
  js intro ++ [LF; LF] ++ js "## Usage" ++ [LF; LF]
  ++ js "```" ++ [LF] ++ js "npm install" ++ [LF] ++ js "```".

Definition libs_guide : Libraries :=
  {| jsdom_parse := fun _ _ => doc_guide;
     readability_parse := fun d => (Some article_guide, d);
     turndown := fun _ _ => markdown_guide;
     selector_all := exact_matcher;
     selector_first := exact_matcher |}.

Definition page_guide : Page := fun _ => Loaded url html_guide.

(** *** An article on a page without any title *)
Definition html_untitled : js_string :=
  js "<html><head></head><body><article><p>" ++ filler 600
  ++ js "</p></article></body></html>".

Definition doc_untitled : Document :=
  {| quirks := true;
     doc_childNodes :=
       [el "html" []
          [el "head" [] [];
           el "body" [] [el "article" [] [el "p" [] [Text (filler 600)]]]]] |}.

Definition article_untitled : Article :=
  {| article_title := [];
     article_content := js "<div><p>" ++ filler 600 ++ js "</p></div>" |}.

Definition libs_untitled : Libraries :=
  {| jsdom_parse := fun _ _ => doc_untitled;
     readability_parse := fun d => (Some article_untitled, d);
     turndown := fun _ _ => filler 600;
     selector_all := exact_matcher;
     selector_first := exact_matcher |}.

Definition page_untitled : Page := fun _ => Loaded url html_untitled.

(** The libraries on a page that parses to [d] and in which Readability
    finds no article. *)
Definition libs_without_article (d : Document) : Libraries :=
  {| jsdom_parse := fun _ _ => d;
     readability_parse := fun d' => (None, d');
     turndown := fun _ _ => [];
     selector_all := exact_matcher;
     selector_first := exact_matcher |}.

Definition hidden : list (js_string * js_string) := [attr "aria-hidden" "true"].

Definition page_of (body_children : list node) : Document :=
  {| quirks := true;
     doc_childNodes :=
       [el "html" []
          [el "head" [] [el "title" [] [Text (js "T")]];
           el "body" [] body_children]] |}.

(** *** A [main] whose text sits in an [aside] *)
Definition html_text_in_aside : js_string :=
  js "<html><head><title>T</title></head><body><main aria-hidden=true><aside>"
  ++ filler 120 ++ js "</aside></main></body></html>".

Definition doc_text_in_aside : Document :=
  page_of [el "main" hidden [el "aside" [] [Text (filler 120)]]].

(** *** A [main] that holds sixty empty pairs of parentheses *)
Definition parens (n : nat) : js_string :=
  concat (repeat [LPAREN; RPAREN] n).

Definition html_parens : js_string :=
  js "<html><head><title>T</title></head><body><main aria-hidden=true>"
  ++ parens 60 ++ js "</main></body></html>".

Definition doc_parens : Document :=
  page_of [el "main" hidden [Text (parens 60)]].

(** *** A [main] with a [nav] at its head, after a short [article] *)
Definition html_main_with_nav : js_string :=
  js "<html><head><title>T</title></head><body><article aria-hidden=true>Teaser</article><main aria-hidden=true><nav>HOME ABOUT LOGIN</nav>"
  ++ filler 60 ++ [SPACE; LF; SPACE] ++ filler 60
  ++ js "<div class=menu>MORE</div></main></body></html>".

Definition main_with_nav : node :=
  el "main" hidden
    [el "nav" [] [Text (js "HOME ABOUT LOGIN")];
     Text (filler 60 ++ [SPACE; LF; SPACE] ++ filler 60);
     el "div" [attr "class" "menu"] [Text (js "MORE")]].

Definition doc_main_with_nav : Document :=
  page_of [el "article" hidden [Text (js "Teaser")]; main_with_nav].

(** *** Pages with the candidate roots, the weakest first

    In tree order: an [aside], then the element with id [content], the one
    of class [content], the one with [role=main], an [article], two
    [main] elements, and a closing text.  [candidates_page n] keeps the
    first [n] of the six elements after the [aside].  These pages are given
    to [fallbackExtraction] directly, which does not consult Readability. *)
Definition candidates : list node :=
  [el "div" [attr "id" "content"] [Text (js "by id")];
   el "div" [attr "class" "content"] [Text (js "by class")];
   el "div" [attr "role" "main"] [Text (js "by role")];
   el "article" [] [Text (js "the article")];
   el "main" [] [Text (js "the main")];
   el "main" [] [Text (js "a second main")]].

Definition candidates_page (n : nat) : Document :=
  page_of (el "aside" [] [Text (js "aside")] :: take n candidates
           ++ [Text (js " tail")]).

Definition candidates_markup : list js_string :=
  [js "<div id=content>by id</div>";
   js "<div class=content>by class</div>";
   js "<div role=main>by role</div>";
   js "<article>the article</article>";
   js "<main>the main</main>";
   js "<main>a second main</main>"].

Definition candidates_html (n : nat) : js_string :=
  js "<html><head><title>T</title></head><body><aside>aside</aside>"
  ++ concat (take n candidates_markup) ++ js " tail</body></html>".

(** *** A page with a title, spelled with spaces around and inside *)
Definition html_titled : js_string :=
  js "<html><head><title>  Web   scraping </title></head><body><article aria-hidden=true>"
  ++ filler 120 ++ js "</article></body></html>".

Definition doc_titled : Document :=
  {| quirks := true;
     doc_childNodes :=
       [el "html" []
          [el "head" [] [el "title" [] [Text (js "  Web   scraping ")]];
           el "body" [] [el "article" hidden [Text (filler 120)]]]] |}.

End Samples.

(** ** The command line: showHelp and main

    The process as [main] drives it: what is written to the two streams,
    and how the process ends. *)

Definition REMOTE_DEBUGGING_PORT : N := 9222.
Definition CONNECTION_TIMEOUT_MS : N := 5000.
Definition GLOBAL_TIMEOUT_MS : N := 30000.

(** Number-to-string conversion of a natural number. *)
Definition decimalN (n : N) : js_string :=
  js (NilEmpty.string_of_uint (N.to_uint n)).

Definition QUOTE : N := 34.

(** U+2717, the ballot x that opens the error lines. *)
Definition BALLOT_X : N := 10007.

Fixpoint join_lines (l : list js_string) : js_string :=
  match l with
  | [] => []
  | [x] => x
  | x :: l' => x ++ LF :: join_lines l'
  end.

(** The template literal of [showHelp]. *)
Definition help_text : js_string :=
  join_lines
    [ [];
      js "Usage: node browser-content.js <url>";
      [];
      js "Extract clean article content from a webpage as Markdown.";
      [];
      js "Arguments:";
      js "  url       URL to extract content from (required)";
      [];
      js "Options:";
      js "  --help    Show this help message";
      [];
      js "Output:";
      js "  - Final URL (after redirects)";
      js "  - Article title";
      js "  - Content as GitHub-flavored Markdown";
      [];
      js "Examples:";
      js "  node browser-content.js " ++ [QUOTE]
        ++ js "https://example.com/article" ++ [QUOTE];
      js "  node browser-content.js " ++ [QUOTE]
        ++ js "https://en.wikipedia.org/wiki/Web_scraping" ++ [QUOTE]
        ++ js " > article.md";
      [];
      js "Notes:";
      js "  - Chrome must be running (use browser-start.js)";
      js "  - Uses Mozilla Readability for extraction";
      js "  - Converts to Markdown with Turndown";
      js "  - Fallback to basic HTML cleaning if Readability fails";
      js "  - Global timeout: " ++ decimalN (GLOBAL_TIMEOUT_MS / 1000) ++ js "s";
      js "  " ].

(** The lines written so far by [console.log] and by [console.error]. *)
Record Console := {
  out : list js_string;
  err : list js_string
}.

(** How a piece of the script ends: it goes on with a value, it calls
    [process.exit], or it throws (an awaited promise rejects). *)
Inductive completion (A : Type) :=
  | Done (a : A)
  | Exit (code : nat)
  | Raise (e : Error).
Arguments Done {A} a.
Arguments Exit {A} code.
Arguments Raise {A} e.

Definition P (A : Type) : Type := Console -> completion A * Console.

Definition pret {A} (a : A) : P A := fun c => (Done a, c).

Definition pbind {A B} (m : P A) (f : A -> P B) : P B :=
  fun c =>
    match m c with
    | (Done a, c') => f a c'
    | (Exit n, c') => (Exit n, c')
    | (Raise e, c') => (Raise e, c')
    end.

Notation "'await' x ':=' m 'in' k" := (pbind m (fun x => k))
  (at level 10, x name, m at level 100, k at level 200).
Notation "m '>>' k" := (pbind m (fun _ => k))
  (at level 100, k at level 200, right associativity).

Definition console_log (line : js_string) : P unit :=
  fun c => (Done tt, {| out := out c ++ [line]; err := err c |}).

Definition console_error (line : js_string) : P unit :=
  fun c => (Done tt, {| out := out c; err := err c ++ [line] |}).

Definition process_exit {A} (code : nat) : P A := fun c => (Exit code, c).

(** Awaiting a promise that has settled with [o]. *)
Definition settle {A} (o : outcome A) : P A :=
  fun c =>
    match o with
    | Returned a => (Done a, c)
    | Thrown e => (Raise e, c)
    end.

(** [try { body } catch (error) { handler }] *)
Definition try_catch {A} (body : P A) (handler : Error -> P A) : P A :=
  fun c =>
    match body c with
    | (Raise e, c') => handler e c'
    | r => r
    end.

(** What puppeteer answers: the browser that [puppeteer.connect] resolves
    to, with the outcome of the three calls [main] makes on it. *)
Record Browser := {
  pages : outcome (list Page);
  newPage : outcome Page;
  disconnect : outcome unit
}.

(** The surroundings of one run.  [timer_fires] tells whether the
    30-second timer set by [main] goes off while the [try] block is still
    waiting, that is before [clearTimeout] is reached; nothing has been
    written by then. *)
Record World := {
  puppeteer_connect : outcome Browser;
  timer_fires : bool
}.

(** [String.prototype.includes] *)
Fixpoint includes (pat s : js_string) : bool :=
  starts_with pat s
  || match s with
     | [] => false
     | _ :: s' => includes pat s'
     end.

Definition showHelp {A} : P A :=
  console_log help_text >> process_exit 0.

(** The body of the [catch] block; [browser] is the variable of that
    name, still undefined when [puppeteer.connect] itself has failed. *)
Definition main_catch (browser : option Browser) (error : Error) : P unit :=
  (if includes (js "connect") (message error) then
     console_error
       (BALLOT_X :: js " Could not connect to Chrome on localhost:"
        ++ decimalN REMOTE_DEBUGGING_PORT) >>
     console_error
       (js "  Make sure Chrome is running with remote debugging enabled.") >>
     console_error (js "  Run: node browser-start.js")
   else
     console_error
       (BALLOT_X :: js " Content extraction failed:" ++ SPACE :: message error)) >>
  match browser with
  | Some b => settle (disconnect b)
  | None => pret tt
  end >>
  process_exit 1.

(** The [try] block from [browser.pages()] on. *)
Definition main_try (L : Libraries) (browser : Browser) (url : js_string)
    : P unit :=
  await pages := settle (pages browser) in
  await page :=
    match pages with
    | p :: _ => pret p
    | [] => settle (newPage browser)
    end in
  await result := settle (fst (extractContent L page url ∅)) in
  console_log (js "URL: " ++ finalUrl result) >>
  console_log (js "Title: " ++ title result) >>
  console_log [] >>
  console_log (content result) >>
  settle (disconnect browser) >>
  process_exit 0.

Definition main (L : Libraries) (w : World) (args : list js_string) : P unit :=
  (if existsb (str_eqb (js "--help")) args || (length args =? 0)%nat
   then showHelp else pret tt) >>
  await url :=
    match List.find (fun arg => negb (starts_with (js "--") arg)) args with
    | Some (c :: u) => pret (c :: u)
    | _ => console_error (js "Error: URL is required") >> showHelp
    end in
  if timer_fires w then
    console_error
      (BALLOT_X :: js " Global timeout ("
       ++ decimalN (GLOBAL_TIMEOUT_MS / 1000) ++ js "s) exceeded") >>
    process_exit 1
  else
    match puppeteer_connect w with
    | Thrown error => main_catch None error
    | Returned browser =>
        try_catch (main_try L browser url) (main_catch (Some browser))
    end.

(** What a run of the script shows from outside.  A rejection that
    nothing catches ends the process with status 1, the error being
    reported by Node itself. *)
Record Output := {
  stdout : list js_string;
  stderr : list js_string;
  exit_code : nat;
  uncaught : option Error
}.

Definition run (p : P unit) : Output :=
  match p {| out := []; err := [] |} with
  | (Done _, c) =>
      {| stdout := out c; stderr := err c; exit_code := 0; uncaught := None |}
  | (Exit n, c) =>
      {| stdout := out c; stderr := err c; exit_code := n; uncaught := None |}
  | (Raise e, c) =>
      {| stdout := out c; stderr := err c; exit_code := 1; uncaught := Some e |}
  end.

(** ** Further vocabulary *)

(** All the text of a document, in tree order. *)
Definition document_text (d : Document) : js_string :=
  flat_map descendant_text (doc_childNodes d).

Definition is_digit (c : N) : bool := (48 <=? c) && (c <=? 57).

(** The code units some atom of the pattern accepts. *)
Definition in_classes (re : regex) (c : N) : bool :=
  existsb (fun a => atom_class a c) re.

(** ** More sample pages *)

Module MoreSamples.

(** *** A page whose [body] carries the class [sidebar]

    The text sits in a [div] marked [aria-hidden], which Readability
    drops, so that it finds no article. *)
Definition html_sidebar : js_string :=
  js "<html><head><title>T</title></head><body class=sidebar><div aria-hidden=true>"
  ++ Samples.filler 500 ++ js "</div></body></html>".

Definition doc_sidebar : Document :=
  {| quirks := true;
     doc_childNodes :=
       [Samples.el "html" []
          [Samples.el "head" [] [Samples.el "title" [] [Text (js "T")]];
           Samples.el "body" [Samples.attr "class" "sidebar"]
             [Samples.el "div" [Samples.attr "aria-hidden" "true"]
                [Text (Samples.filler 500)]]]] |}.

Definition libs_sidebar : Libraries :=
  {| jsdom_parse := fun _ _ => doc_sidebar;
     readability_parse := fun d => (None, d);
     turndown := fun _ _ => [];
     selector_all := Samples.exact_matcher;
     selector_first := Samples.exact_matcher |}.

Definition page_sidebar : Page := fun _ => Loaded Samples.url html_sidebar.

(** *** A browser with one open page, and a run that reaches it *)
Definition browser_with (p : Page) : Browser :=
  {| pages := Returned [p]; newPage := Returned p; disconnect := Returned tt |}.

Definition world_with (p : Page) : World :=
  {| puppeteer_connect := Returned (browser_with p); timer_fires := false |}.

(** A navigation that puppeteer rejects. *)
Definition disconnected : Error :=
  {| message := js "Navigation failed because browser has disconnected!" |}.

Definition page_disconnected : Page := fun _ => Rejected disconnected.

End MoreSamples.

(** The page [main] works on: the first open page, or a new one when
    there is none. *)
Definition open_page (b : Browser) : outcome Page :=
  match pages b with
  | Returned (p :: _) => Returned p
  | Returned [] => newPage b
  | Thrown e => Thrown e
  end.

(** The lines of the [catch] block for an error. *)
Definition error_report (e : Error) : list js_string :=
  if includes (js "connect") (message e) then
    [BALLOT_X :: js " Could not connect to Chrome on localhost:9222";
     js "  Make sure Chrome is running with remote debugging enabled.";
     js "  Run: node browser-start.js"]
  else
    [BALLOT_X :: js " Content extraction failed: " ++ message e].

(** The four lines printed for a result. *)
Definition result_lines (r : ExtractionResult) : list js_string :=
  [js "URL: " ++ finalUrl r; js "Title: " ++ title r; []; content r].

(** The maximal runs of code units that do not satisfy [p]; [cur] is the
    run being read, reversed. *)
Fixpoint split_when (p : N -> bool) (cur s : js_string) : list js_string :=
  match s with
  | [] => match cur with [] => [] | _ => [rev cur] end
  | x :: s' =>
      if p x then
        match cur with
        | [] => split_when p [] s'
        | _ => rev cur :: split_when p [] s'
        end
      else split_when p (x :: cur) s'
  end.

(** The words of a text: its maximal runs without whitespace. *)
Definition words (s : js_string) : list js_string := split_when is_space [] s.
(** ** Facts about the matcher and the global replace *)

Section Engine.

Variable re : regex.
Variable rep : js_string.

Lemma match_here_le (r : regex) (s : js_string) (n : nat) :
  match_here r s = Some n -> (n <= length s)%nat.
Proof.
  revert s n. induction r as [|[c q] r IH]; intros s n; simpl.
  - intros [= <-]. lia.
  - assert (Hstar : forall s n,
      (fix star (s : js_string) : option nat :=
         match s with
         | x :: s' =>
             if c x then
               match star s' with
               | Some n => Some (S n)
               | None => match_here r s
               end
             else match_here r s
         | [] => match_here r []
         end) s = Some n -> (n <= length s)%nat).
    { clear s n. induction s as [|x s IHs]; intros n.
      - apply IH.
      - destruct (c x); [|apply IH].
        destruct (_ s) as [m|] eqn:E; [|apply IH].
        intros [= <-]. specialize (IHs _ eq_refl). simpl. lia. }
    destruct q.
    + destruct s as [|x s]; [done|]. destruct (c x); [|done].
      destruct (match_here r s) as [m|] eqn:E; [|done].
      intros [= <-]. apply IH in E. simpl. lia.
    + apply Hstar.
    + destruct s as [|x s]; [done|]. destruct (c x); [|done].
      destruct (_ s) as [m|] eqn:E; [|done].
      intros [= <-]. apply Hstar in E. simpl. lia.
Qed.

Lemma replace_from_skip (n : nat) (s : js_string) :
  (n <= length s)%nat ->
  replace_from re rep n s = replace_from re rep O (drop n s).
Proof.
  revert n. induction s as [|x s IH]; intros [|n] Hn; simpl in *; try done; try lia.
  apply IH. lia.
Qed.

(** The scan, one position at a time. *)
Lemma replace_all_cons (x : N) (s : js_string) :
  replace_all re rep (x :: s) =
    match match_here re (x :: s) with
    | Some (S n) => rep ++ replace_all re rep (drop n s)
    | Some O => rep ++ x :: replace_all re rep s
    | None => x :: replace_all re rep s
    end.
Proof.
  unfold replace_all. simpl.
  destruct (match_here re (x :: s)) as [[|n]|] eqn:E; try done.
  apply match_here_le in E. simpl in E.
  rewrite replace_from_skip by lia. done.
Qed.

Lemma match_here_one_mismatch (c : N -> bool) (r : regex) (x : N)
    (s : js_string) :
  c x = false -> match_here (Atom c One :: r) (x :: s) = None.
Proof. simpl. by intros ->. Qed.

Lemma regex_test_cons (x : N) (s : js_string) :
  regex_test re (x :: s) =
    match match_here re (x :: s) with
    | Some _ => true
    | None => regex_test re s
    end.
Proof. done. Qed.

Lemma replace_all_no_match (s : js_string) :
  regex_test re s = false -> replace_all re rep s = s.
Proof.
  induction s as [|x s IH].
  - unfold replace_all. simpl. by destruct (match_here re []).
  - intros H. rewrite replace_all_cons. simpl in H.
    destruct (match_here re (x :: s)); [done|]. by rewrite IH.
Qed.

End Engine.

(** ** Whitespace after the [/\s+/g] pass *)

Lemma match_spaces (x : N) (s : js_string) :
  match_here re_spaces (x :: s) =
    if is_space x then Some (S (ws_len s)) else None.
Proof.
  simpl. destruct (is_space x); [|done].
  replace (_ s) with (Some (ws_len s)); [done|].
  induction s as [|y s IH]; [done|]. simpl.
  destruct (is_space y); [|done]. by rewrite <- IH.
Qed.

Lemma drop_ws_len (s : js_string) : starts_nonspace (drop (ws_len s) s).
Proof.
  induction s as [|x s IH]; simpl; [done|].
  destruct (is_space x) eqn:E; simpl; done.
Qed.

Lemma drop_ws_len_length (s : js_string) :
  (length (drop (ws_len s) s) <= length s)%nat.
Proof. rewrite length_drop. lia. Qed.

Lemma collapse_cons (x : N) (s : js_string) :
  replace_all re_spaces [SPACE] (x :: s) =
    if is_space x
    then SPACE :: replace_all re_spaces [SPACE] (drop (ws_len s) s)
    else x :: replace_all re_spaces [SPACE] s.
Proof.
  rewrite replace_all_cons, match_spaces. by destruct (is_space x).
Qed.

Lemma collapse_starts_nonspace (s : js_string) :
  starts_nonspace s -> starts_nonspace (replace_all re_spaces [SPACE] s).
Proof.
  destruct s as [|x s]; [done|]. simpl. intros H.
  rewrite collapse_cons, H. done.
Qed.

Lemma collapse_single_spaced (s : js_string) :
  single_spaced (replace_all re_spaces [SPACE] s).
Proof.
  remember (length s) as n eqn:Hn. revert s Hn.
  induction n as [n IH] using lt_wf_ind. intros [|x s] Hn; [done|].
  simpl in Hn. rewrite collapse_cons.
  destruct (is_space x) eqn:E; simpl.
  - split.
    + intros _. split; [done|].
      apply collapse_starts_nonspace, drop_ws_len.
    + pose proof (drop_ws_len_length s). eapply IH; [|done]. lia.
  - split; [unfold SPACE in *; congruence|].
    eapply IH; [|done]. lia.
Qed.

Lemma starts_nonspace_ws_len (s : js_string) :
  starts_nonspace s -> ws_len s = O.
Proof. destruct s as [|x s]; [done|]. simpl. by intros ->. Qed.

Lemma collapse_id (s : js_string) :
  single_spaced s -> replace_all re_spaces [SPACE] s = s.
Proof.
  induction s as [|x s IH]; [done|]. simpl. intros [Hx Hs].
  rewrite collapse_cons. destruct (is_space x).
  - destruct (Hx eq_refl) as [-> Hn].
    rewrite (starts_nonspace_ws_len _ Hn), drop_0. by rewrite IH.
  - by rewrite IH.
Qed.

(** A single-spaced string has no line feed, so [/\n\s*\n\s*\n/g] finds
    nothing in it. *)
Lemma single_spaced_no_blank_lines (s : js_string) :
  single_spaced s -> regex_test re_blank_lines s = false.
Proof.
  induction s as [|x s IH]; [done|]. intros [Hx Hs].
  unfold re_blank_lines. rewrite regex_test_cons, match_here_one_mismatch.
  - by apply IH.
  - apply N.eqb_neq. intros <-. by destruct (Hx eq_refl).
Qed.

Lemma blank_lines_id (s : js_string) :
  single_spaced s -> replace_all re_blank_lines [LF; LF] s = s.
Proof.
  intros H. by apply replace_all_no_match, single_spaced_no_blank_lines.
Qed.

(** ** trim *)

Lemma trimStart_starts_nonspace (s : js_string) :
  starts_nonspace (trimStart s).
Proof.
  induction s as [|x s IH]; [done|]. simpl.
  destruct (is_space x) eqn:E; done.
Qed.

Lemma trimStart_drop (s : js_string) : exists k, trimStart s = drop k s.
Proof.
  induction s as [|x s [k IH]]; [by exists O|]. simpl.
  destruct (is_space x); [by exists (S k)|by exists O].
Qed.

Lemma trimStart_id (s : js_string) : starts_nonspace s -> trimStart s = s.
Proof. destruct s as [|x s]; [done|]. simpl. by intros ->. Qed.

Lemma trimEnd_take (s : js_string) : exists k, trimEnd s = take k s.
Proof.
  unfold trimEnd. destruct (trimStart_drop (rev s)) as [k ->].
  exists (length s - k)%nat. by rewrite skipn_rev, rev_involutive.
Qed.

Lemma trimEnd_ends_nonspace (s : js_string) :
  starts_nonspace (rev (trimEnd s)).
Proof.
  unfold trimEnd. rewrite rev_involutive. apply trimStart_starts_nonspace.
Qed.

Lemma trimEnd_id (s : js_string) :
  starts_nonspace (rev s) -> trimEnd s = s.
Proof.
  intros H. unfold trimEnd. by rewrite trimStart_id, rev_involutive.
Qed.

Lemma starts_nonspace_take (k : nat) (s : js_string) :
  starts_nonspace s -> starts_nonspace (take k s).
Proof. destruct s, k; done. Qed.

Lemma single_spaced_drop (k : nat) (s : js_string) :
  single_spaced s -> single_spaced (drop k s).
Proof.
  revert k. induction s as [|x s IH]; intros [|k]; try done.
  simpl. intros [_ H]. by apply IH.
Qed.

Lemma single_spaced_take (k : nat) (s : js_string) :
  single_spaced s -> single_spaced (take k s).
Proof.
  revert k. induction s as [|x s IH]; intros [|k]; try done.
  simpl. intros [Hx H]. split; [|by apply IH].
  intros E. destruct (Hx E) as [-> Hn]. split; [done|].
  by apply starts_nonspace_take.
Qed.

Lemma trim_cleaned (s : js_string) : single_spaced s -> cleaned (trim s).
Proof.
  intros H. unfold trim.
  destruct (trimStart_drop s) as [k Hk].
  destruct (trimEnd_take (trimStart s)) as [j Hj].
  repeat split.
  - rewrite Hj, Hk. by apply single_spaced_take, single_spaced_drop.
  - rewrite Hj. apply starts_nonspace_take, trimStart_starts_nonspace.
  - apply trimEnd_ends_nonspace.
Qed.

Lemma trim_id (s : js_string) : cleaned s -> trim s = s.
Proof.
  intros (_ & Hs & He). unfold trim. rewrite (trimStart_id _ Hs).
  by apply trimEnd_id.
Qed.

Lemma cleanText_cleaned (s : js_string) : cleaned (cleanText s).
Proof.
  unfold cleanText. rewrite blank_lines_id by apply collapse_single_spaced.
  apply trim_cleaned, collapse_single_spaced.
Qed.


(** ** The matcher and the DOM on small inputs *)

Example replace_star_empty_matches :
  replace_all [Atom (N.eqb 97) Star] (js "X") (js "baaac") = js "XbXXcX".
Proof. reflexivity. Qed.

Example blank_lines_alone :
  replace_all re_blank_lines [LF; LF]
    (js "a" ++ [LF; SPACE; LF; LF; SPACE; LF; LF; SPACE] ++ js "b")
  = js "a" ++ [LF; LF; SPACE] ++ js "b".
Proof. reflexivity. Qed.

Example empty_parens_alone :
  replace_all re_empty_parens [] (js "f( )(x)(" ++ [LF; 9] ++ js ")") = js "f(x)".
Proof. reflexivity. Qed.

Example trim_both_ends :
  trim ([LF; 160] ++ js " a b " ++ [8232]) = js "a b".
Proof. reflexivity. Qed.

Example title_is_normalised :
  document_title
    {| quirks := false;
       doc_childNodes :=
         [Samples.el "html" []
            [Samples.el "head" []
               [Samples.el "title" []
                  [Text (js "  Web " ++ [LF]); Comment (js "x");
                   Text (js "  scraping ")]];
             Samples.el "body" [] []]] |}
  = js "Web scraping".
Proof. reflexivity. Qed.

Example unwanted_removed :
  remove_all Samples.exact_matcher unwanted Samples.doc_article
  = {| quirks := true;
       doc_childNodes :=
         [Samples.el "html" []
            [Samples.el "head" [] [];
             Samples.el "body" []
               [Samples.el "article" [Samples.attr "aria-hidden" "true"]
                  [Text (Samples.filler 120)]]]] |}.
Proof. reflexivity. Qed.

(** ** The store and the two functions of the script *)

Lemma fresh_lookup (h : store) : h !! fresh (dom h) = None.
Proof. apply not_elem_of_dom, is_fresh. Qed.

Lemma lookup_before_fresh (h : store) (r : ref) (d d' : Document) :
  h !! r = Some d -> <[fresh (dom h) := d']> h !! r = Some d.
Proof.
  intros H. rewrite lookup_insert_ne; [done|].
  intros <-. rewrite fresh_lookup in H. done.
Qed.

Section Pipeline.

Variable L : Libraries.

Lemma fallbackExtraction_run (html url : js_string) (h : store) :
  fallbackExtraction L html url h =
    (Returned (fallback_text L html url),
     <[fresh (dom h) :=
         remove_all (selector_all L) unwanted (jsdom_parse L html url)]> h).
Proof.
  unfold fallbackExtraction, bind, new_JSDOM, alloc, get_document,
    set_document, ret.
  rewrite lookup_insert_eq, insert_insert_eq. done.
Qed.

Lemma extractContent_rejected (page : Page) (url : js_string) (h : store)
    (e : Error) :
  page url = Rejected e -> extractContent L page url h = (Thrown e, h).
Proof. unfold extractContent. by intros ->. Qed.

Lemma extractContent_run (page : Page) (url : js_string) (h : store)
    (finalUrl html : js_string) :
  page url = Loaded finalUrl html ->
  extractContent L page url h =
    (quality_gate finalUrl (title_and_content L finalUrl html),
     final_store L finalUrl html h).
Proof.
  intros Hp. unfold extractContent. rewrite Hp.
  unfold bind at 1. unfold new_JSDOM, alloc.
  unfold bind at 1. unfold Readability_parse, bind at 1.
  unfold get_document at 1. rewrite lookup_insert_eq.
  unfold bind at 1, set_document at 1. rewrite insert_insert_eq.
  unfold ret at 1.
  unfold quality_gate, title_and_content, final_store, primary.
  destruct (readability_parse L (jsdom_parse L html finalUrl)) as [[a|] d1];
    simpl.
  - unfold bind, ret, throw. simpl.
    by destruct (_ <? _)%nat.
  - unfold bind at 1. unfold bind at 1.
    unfold get_document at 1. rewrite lookup_insert_eq.
    unfold bind at 1. rewrite fallbackExtraction_run.
    unfold ret, throw. simpl.
    by destruct (_ <? _)%nat.
Qed.

End Pipeline.

(** ** Trees *)

Lemma node_ind (P : node -> Prop)
    (HT : forall data, P (Text data))
    (HC : forall data, P (Comment data))
    (HE : forall ns name attrs children,
        Forall P children -> P (Element ns name attrs children)) :
  forall n, P n.
Proof.
  fix IH 1. intros [data|data|ns name attrs children].
  - apply HT.
  - apply HC.
  - apply HE. induction children as [|c children IHc]; constructor.
    + apply IH.
    + apply IHc.
Qed.

Lemma elements_of_self (n : node) (e : node) :
  In e (elements_of n) -> In e (elements_of e).
Proof.
  induction n as [| |ns name attrs children IH] using node_ind; simpl; try done.
  intros [<-|H]; [by left|].
  apply in_flat_map in H as (c & Hc & He).
  rewrite List.Forall_forall in IH. by apply (IH c).
Qed.

Lemma elements_of_trans (n e x : node) :
  In e (elements_of n) -> In x (elements_of e) -> In x (elements_of n).
Proof.
  induction n as [| |ns name attrs children IH] using node_ind; simpl; try done.
  intros [<-|H] Hx; [done|]. right.
  apply in_flat_map in H as (c & Hc & He).
  apply in_flat_map. exists c. split; [done|].
  rewrite List.Forall_forall in IH. by apply (IH c).
Qed.

Lemma matches_remove_matching (m : matcher) (q : bool) (sel : selector)
    (p : node -> bool) (n : node) :
  matches m q sel (remove_matching p n) = matches m q sel n.
Proof. by destruct n. Qed.

Lemma remove_matching_free (m : matcher) (q : bool) (sel : selector)
    (n e : node) :
  matches m q sel n = false ->
  In e (elements_of (remove_matching (matches m q sel) n)) ->
  matches m q sel e = false.
Proof.
  revert e.
  induction n as [| |ns name attrs children IH] using node_ind; simpl; try done.
  intros e Hn [<-|H]; [done|].
  apply in_flat_map in H as (c' & Hc' & He).
  apply in_flat_map in Hc' as (c & Hc & Hcc).
  rewrite List.Forall_forall in IH.
  destruct (matches m q sel c) eqn:E; simpl in Hcc; [done|].
  destruct Hcc as [<-|[]]. by apply (IH c).
Qed.

Lemma remove_all_free (m : matcher) (sel : selector) (d : Document)
    (e : node) :
  In e (document_elements (remove_all m sel d)) ->
  matches m (quirks d) sel e = false.
Proof.
  unfold document_elements, remove_all. simpl. intros H.
  apply in_flat_map in H as (c' & Hc' & He).
  apply in_flat_map in Hc' as (c & Hc & Hcc).
  destruct (matches m (quirks d) sel c) eqn:E; simpl in Hcc; [done|].
  destruct Hcc as [<-|[]]. by apply (remove_matching_free _ _ _ c).
Qed.

Lemma querySelector_In (m : matcher) (sel : selector) (d : Document)
    (e : node) :
  querySelector m sel d = Some e ->
  In e (document_elements d) /\ matches m (quirks d) sel e = true.
Proof.
  unfold querySelector. intros H.
  apply filter_In. destruct (List.filter _ _) as [|x l]; [done|].
  injection H as ->. by left.
Qed.

Lemma or_else_first_present {A} (a : option A) (l : list (option A))
    (r : option A) :
  first_present l r -> first_present (a :: l) (a <||> r).
Proof. destruct a; simpl; intros H; by constructor. Qed.

(** ** Lines *)

Lemma lines_from_no_LF (cur s : js_string) :
  Forall (fun c => c <> LF) s -> lines_from cur s = [rev cur ++ s].
Proof.
  revert cur. induction s as [|x s IH]; intros cur H; simpl.
  - by rewrite app_nil_r.
  - inversion H as [|? ? Hx Hs]; subst.
    apply N.eqb_neq in Hx. rewrite Hx, IH by done. simpl.
    by rewrite <- app_assoc.
Qed.

Lemma single_spaced_spaces (s : js_string) :
  single_spaced s -> Forall (fun c => is_space c = true -> c = SPACE) s.
Proof.
  induction s as [|x s IH]; [constructor|]. simpl. intros [Hx Hs].
  constructor; [|by apply IH]. intros E. by destruct (Hx E).
Qed.

Lemma line_terminator_is_space (c : N) :
  is_line_terminator c = true -> is_space c = true /\ c <> SPACE.
Proof.
  unfold is_line_terminator, is_space, SPACE. intros H.
  repeat (apply orb_prop in H as [H|H]); apply N.eqb_eq in H; subst; done.
Qed.

(** ** cleanText: the properties *)

Lemma cleanText_fixed (t : js_string) :
  cleaned t -> replace_all re_empty_parens [] t = t -> cleanText t = t.
Proof.
  intros Ht Hp. unfold cleanText. rewrite Hp.
  destruct Ht as (Hs & ?). rewrite (collapse_id _ Hs), (blank_lines_id _ Hs).
  by apply trim_id.
Qed.

Lemma cleanText_no_line_terminator (s : js_string) :
  Forall (fun c => is_line_terminator c = false) (cleanText s).
Proof.
  destruct (cleanText_cleaned s) as (Hs & _).
  apply single_spaced_spaces in Hs.
  eapply Forall_impl; [exact Hs|]. simpl. intros c Hc.
  destruct (is_line_terminator c) eqn:E; [|done].
  apply line_terminator_is_space in E as [E1 E2]. by apply Hc in E1.
Qed.

Lemma cleanText_no_LF (s : js_string) :
  Forall (fun c => c <> LF) (cleanText s).
Proof.
  eapply Forall_impl; [apply cleanText_no_line_terminator|].
  simpl. by intros c Hc ->.
Qed.

Lemma title_and_content_cleaned (L : Libraries) (finalUrl html : js_string) :
  exists s, snd (title_and_content L finalUrl html) = cleanText s.
Proof.
  unfold title_and_content, fallback_text.
  destruct (fst (primary L finalUrl html)); simpl; eauto.
Qed.

Lemma returned_content (L : Libraries) (page : Page) (url : js_string)
    (h : store) (r : ExtractionResult) :
  fst (extractContent L page url h) = Returned r ->
  exists html,
    page url = Loaded (finalUrl r) html
    /\ title r = fst (title_and_content L (finalUrl r) html)
    /\ content r = snd (title_and_content L (finalUrl r) html)
    /\ (MIN_CONTENT_LENGTH <= length (content r))%nat.
Proof.
  destruct (page url) as [e|f html] eqn:Hp.
  - by rewrite (extractContent_rejected L _ _ _ e Hp).
  - rewrite (extractContent_run L _ _ _ f html Hp). simpl.
    unfold quality_gate.
    destruct (_ <? _)%nat eqn:E; [done|]. intros [= <-]. simpl.
    exists html. apply Nat.ltb_ge in E. done.
Qed.

(** C2. [cleanText] at the two inputs of the claim: the four newlines
    between [a] and [b] come out as one space, not as two newlines, because
    the [/\s+/g] pass has already turned every newline into a space when
    the [/\n\s*\n\s*\n/g] pass runs; the empty parentheses of
    ["foo(  )bar"] are removed. *)
Theorem cleanText_four_newlines :
  cleanText (js "a" ++ [LF; LF; LF; LF] ++ js "b") = js "a b"
  /\ cleanText (js "foo(  )bar") = js "foobar".
Proof. split; reflexivity. Qed.

(** C3, as stated: a second pass over the cleaned form of ["(())"]
    removes the pair of parentheses the first pass left. *)
Lemma cleanText_not_idempotent :
  cleanText (js "(())") = js "()"
  /\ cleanText (cleanText (js "(())")) = []
  /\ ~ (forall s, cleanText (cleanText s) = cleanText s).
Proof.
  repeat split; try reflexivity.
  intros H. specialize (H (js "(())")). vm_compute in H. discriminate H.
Qed.

(** C3, amended: when the cleaned text holds no empty pair of
    parentheses, that is [/\(\s*\)/] finds no match in it, cleaning it
    again changes nothing. *)
Theorem cleanText_idempotent_without_empty_parens (s : js_string) :
  regex_test re_empty_parens (cleanText s) = false ->
  cleanText (cleanText s) = cleanText s.
Proof.
  intros H. apply cleanText_fixed.
  - apply cleanText_cleaned.
  - by apply replace_all_no_match.
Qed.

Lemma cleanText_idempotent_witness :
  regex_test re_empty_parens
    (cleanText (js "a  ( ) b" ++ [LF; LF; LF] ++ js "(c) ")) = false
  /\ cleanText (cleanText (js "a  ( ) b" ++ [LF; LF; LF] ++ js "(c) "))
     = cleanText (js "a  ( ) b" ++ [LF; LF; LF] ++ js "(c) ").
Proof.
  split; [reflexivity|].
  apply (cleanText_idempotent_without_empty_parens
           (js "a  ( ) b" ++ [LF; LF; LF] ++ js "(c) ")).
  reflexivity.
Defined.

(** C4. The output of [cleanText] holds no newline (no line terminator
    at all) and neither starts nor ends with whitespace; hence the content
    of every result that [extractContent] returns is a single line. *)
Theorem cleanText_single_line :
  (forall s : js_string,
      Forall (fun c => c <> LF) (cleanText s)
      /\ Forall (fun c => is_line_terminator c = false) (cleanText s)
      /\ (forall c, head (cleanText s) = Some c -> is_space c = false)
      /\ (forall c, last (cleanText s) = Some c -> is_space c = false))
  /\ (forall (L : Libraries) (page : Page) (url : js_string) (h : store)
        (r : ExtractionResult),
        fst (extractContent L page url h) = Returned r ->
        Forall (fun c => c <> LF) (content r)
        /\ lines (content r) = [content r]).
Proof.
  split.
  - intros s. destruct (cleanText_cleaned s) as (_ & Hs & He).
    split; [apply cleanText_no_LF|].
    split; [apply cleanText_no_line_terminator|]. split.
    + intros c Hc. destruct (cleanText s); [done|]. by injection Hc as ->.
    + intros c Hc. rewrite <- head_reverse in Hc.
      unfold reverse in Hc. rewrite <- rev_alt in Hc.
      destruct (rev (cleanText s)); [done|]. by injection Hc as ->.
  - intros L page url h r Hr.
    apply returned_content in Hr as (html & _ & _ & Hc & _).
    destruct (title_and_content_cleaned L (finalUrl r) html) as [s Hs].
    rewrite Hc, Hs. split; [apply cleanText_no_LF|].
    unfold lines. rewrite lines_from_no_LF; [done|apply cleanText_no_LF].
Qed.

Lemma cleanText_single_line_witness :
  lines (content {| finalUrl := Samples.url; title := js "Untitled";
                    content := Samples.filler 120 |})
  = [content {| finalUrl := Samples.url; title := js "Untitled";
                content := Samples.filler 120 |}].
Proof.
  refine (proj2 (proj2 cleanText_single_line Samples.libs_article
                   Samples.page_article Samples.url ∅
                   {| finalUrl := Samples.url; title := js "Untitled";
                      content := Samples.filler 120 |} _)).
  vm_compute. reflexivity.
Defined.

(** ** extractContent: the properties *)



(** C8. A page whose article has a paragraph, an [h2] and a
    [pre][code] block.  Turndown's Markdown has the line [## Usage] and
    the fence lines, but the content returned is that Markdown on one
    line: no line of it starts with [##] and none is a fence. *)
Theorem markdown_lines_flattened :
  let md := turndown Samples.libs_guide turndown_options
              (article_content Samples.article_guide) in
  In (js "## Usage") (lines md)
  /\ In (js "```") (lines md)
  /\ exists r,
      fst (extractContent Samples.libs_guide Samples.page_guide Samples.url ∅)
      = Returned r
      /\ content r = js Samples.intro ++ js " ## Usage ``` npm install ```"
      /\ lines (content r) = [content r]
      /\ starts_with (js "##") (content r) = false
      /\ ~ In (js "```") (lines (content r)).
Proof.
  split; [vm_compute; tauto|]. split; [vm_compute; tauto|].
  eexists. split; [reflexivity|]. simpl content.
  split; [reflexivity|]. split; [reflexivity|]. split; [reflexivity|].
  vm_compute. intros [H|[]]. discriminate H.
Qed.

(** C9. A page without a title whose article Readability returns with
    an empty [title]: the call succeeds and the title of the result is the
    empty string; the default ["Untitled"] is applied on the fallback path
    only. *)
Theorem primary_title_not_defaulted :
  fst (extractContent Samples.libs_untitled Samples.page_untitled Samples.url ∅)
  = Returned {| finalUrl := Samples.url; title := [];
                content := Samples.filler 600 |}.
Proof. vm_compute. reflexivity. Qed.

(** C10. The outcome of a call depends on what the page loads and on
    nothing else: two calls whose navigation gives the same final URL and
    HTML have the same outcome whatever documents the store already holds,
    in particular a call made after another one; and a call leaves every
    document that was in the store as it was. *)
Theorem extractContent_deterministic (L : Libraries) (page1 page2 : Page)
    (url1 url2 : js_string) (h1 h2 : store) :
  page1 url1 = page2 url2 ->
  fst (extractContent L page1 url1 h1) = fst (extractContent L page2 url2 h2)
  /\ fst (extractContent L page2 url2 (snd (extractContent L page1 url1 h1)))
     = fst (extractContent L page1 url1 h1)
  /\ (forall r d, h1 !! r = Some d ->
        snd (extractContent L page1 url1 h1) !! r = Some d).
Proof.
  intros Hp. destruct (page1 url1) as [e|f html] eqn:H1; symmetry in Hp.
  - rewrite !(extractContent_rejected L _ _ _ e) by done. done.
  - rewrite !(extractContent_run L _ _ _ f html) by done. simpl.
    split; [done|]. split; [done|]. intros r d Hr.
    unfold final_store. destruct (fst (primary L f html)).
    + by apply lookup_before_fresh.
    + by do 2 apply lookup_before_fresh.
Qed.

Lemma extractContent_deterministic_witness :
  fst (extractContent Samples.libs_article Samples.page_article Samples.url ∅)
  = fst (extractContent Samples.libs_article
           (fun _ => Loaded Samples.url Samples.html_article) []
           {[ 7%nat := Samples.doc_guide ]}).
Proof.
  apply (extractContent_deterministic Samples.libs_article
           Samples.page_article
           (fun _ => Loaded Samples.url Samples.html_article)
           Samples.url [] ∅ {[ 7%nat := Samples.doc_guide ]}).
  reflexivity.
Defined.

(** ** More about the global replace *)

Section Replace.

Variable re : regex.
Variable rep : js_string.

(** Induction along the scan of [replace_all]. *)
Lemma replace_all_ind (Q : js_string -> js_string -> Prop) :
  Q [] (replace_all re rep []) ->
  (forall x s n,
      match_here re (x :: s) = Some (S n) -> (n <= length s)%nat ->
      Q (drop n s) (replace_all re rep (drop n s)) ->
      Q (x :: s) (rep ++ replace_all re rep (drop n s))) ->
  (forall x s,
      match_here re (x :: s) = Some O ->
      Q s (replace_all re rep s) ->
      Q (x :: s) (rep ++ x :: replace_all re rep s)) ->
  (forall x s,
      match_here re (x :: s) = None ->
      Q s (replace_all re rep s) ->
      Q (x :: s) (x :: replace_all re rep s)) ->
  forall s, Q s (replace_all re rep s).
Proof.
  intros Hnil Hmatch Hempty Hnone s.
  remember (length s) as k eqn:Hk. revert s Hk.
  induction k as [k IH] using lt_wf_ind. intros [|x s] Hk; [done|].
  simpl in Hk. rewrite replace_all_cons.
  destruct (match_here re (x :: s)) as [[|n]|] eqn:E.
  - apply Hempty; [done|]. eapply IH; [|done]. lia.
  - pose proof (match_here_le _ _ _ E) as Hn. simpl in Hn.
    apply Hmatch; [done|lia|]. eapply IH; [|done].
    rewrite length_drop. lia.
  - apply Hnone; [done|]. eapply IH; [|done]. lia.
Qed.

Lemma match_here_classes (r : regex) (s : js_string) (n : nat) :
  match_here r s = Some n ->
  Forall (fun c => in_classes r c = true) (take n s).
Proof.
  revert s n. induction r as [|[c q] r IH]; intros s n; simpl.
  - intros [= <-]. rewrite take_0. constructor.
  - assert (Hk : forall s n, match_here r s = Some n ->
        Forall (fun x => in_classes (Atom c q :: r) x = true) (take n s)).
    { intros s' n' H. eapply Forall_impl; [by apply IH|].
      simpl. intros x ->. apply orb_true_r. }
    assert (Hstar : forall s n,
        (fix star (s : js_string) : option nat :=
           match s with
           | x :: s' =>
               if c x then
                 match star s' with
                 | Some n => Some (S n)
                 | None => match_here r s
                 end
               else match_here r s
           | [] => match_here r []
           end) s = Some n ->
        Forall (fun x => in_classes (Atom c q :: r) x = true) (take n s)).
    { clear s n. induction s as [|x s IHs]; intros n.
      - apply Hk.
      - destruct (c x) eqn:Ex; [|apply Hk].
        destruct (_ s) as [m|] eqn:E; [|apply Hk].
        intros [= <-]. simpl. constructor; [simpl; by rewrite Ex|].
        by apply IHs. }
    destruct q.
    + destruct s as [|x s]; [done|]. destruct (c x) eqn:Ex; [|done].
      destruct (match_here r s) as [m|] eqn:E; [|done].
      intros [= <-]. simpl. constructor; [simpl; by rewrite Ex|].
      by apply Hk.
    + apply Hstar.
    + destruct s as [|x s]; [done|]. destruct (c x) eqn:Ex; [|done].
      destruct (_ s) as [m|] eqn:E; [|done].
      intros [= <-]. simpl. constructor; [simpl; by rewrite Ex|].
      by apply Hstar.
Qed.

Lemma filter_none (keep : N -> bool) (l : js_string) :
  Forall (fun c => keep c = false) l -> List.filter keep l = [].
Proof.
  induction 1 as [|x l Hx _ IH]; [done|]. simpl. by rewrite Hx.
Qed.

(** Code units that no atom accepts and that the replacement does not
    hold go through the replace untouched. *)
Lemma replace_all_filter (keep : N -> bool) :
  (forall c, in_classes re c = true -> keep c = false) ->
  List.filter keep rep = [] ->
  forall s, List.filter keep (replace_all re rep s) = List.filter keep s.
Proof.
  intros Hcls Hrep.
  apply (replace_all_ind (fun s t => List.filter keep t = List.filter keep s)).
  - unfold replace_all. simpl. by destruct (match_here re []).
  - intros x s n Hm Hn IH.
    rewrite List.filter_app, Hrep, IH.
    apply match_here_classes in Hm.
    rewrite <- (take_drop (S n) (x :: s)).
    rewrite List.filter_app, (filter_none keep (take (S n) (x :: s))); [done|].
    eapply Forall_impl; [exact Hm|]. simpl. by intros c Hc; apply Hcls.
  - intros x s _ IH. rewrite List.filter_app, Hrep. simpl. by rewrite IH.
  - intros x s _ IH. simpl. by rewrite IH.
Qed.

Lemma In_drop (k : nat) (s : js_string) (c : N) :
  In c (drop k s) -> In c s.
Proof.
  intros H. rewrite <- (take_drop k s). apply in_or_app. by right.
Qed.

Lemma In_take (k : nat) (s : js_string) (c : N) :
  In c (take k s) -> In c s.
Proof.
  intros H. rewrite <- (take_drop k s). apply in_or_app. by left.
Qed.

(** Nothing comes out of the replace but code units of the input and of
    the replacement. *)
Lemma replace_all_In (s : js_string) (c : N) :
  In c (replace_all re rep s) -> In c rep \/ In c s.
Proof.
  revert c. apply (replace_all_ind (fun s t => forall c, In c t -> In c rep \/ In c s)).
  - unfold replace_all. simpl. intros c.
    destruct (match_here re []); [by left|done].
  - intros x s' n _ _ IH c Hc. apply in_app_or in Hc as [Hc|Hc]; [by left|].
    destruct (IH c Hc) as [?|H]; [by left|]. right. right.
    by apply (In_drop n).
  - intros x s' _ IH c Hc. apply in_app_or in Hc as [Hc|[<-|Hc]].
    + by left.
    + right. by left.
    + destruct (IH c Hc) as [?|?]; [by left|]. right. by right.
  - intros x s' _ IH c [<-|Hc]; [right; by left|].
    destruct (IH c Hc) as [?|?]; [by left|]. right. by right.
Qed.

End Replace.

Lemma remove_length (re : regex) (s : js_string) :
  (length (replace_all re [] s) <= length s)%nat.
Proof.
  apply (replace_all_ind re [] (fun s t => (length t <= length s)%nat)).
  - unfold replace_all. simpl. by destruct (match_here re []).
  - intros x s' n _ _ IH. rewrite length_drop in IH. simpl. lia.
  - intros x s' _ IH. simpl. lia.
  - intros x s' _ IH. simpl. lia.
Qed.

Lemma collapse_length (s : js_string) :
  (length (replace_all re_spaces [SPACE] s) <= length s)%nat.
Proof.
  apply (replace_all_ind re_spaces [SPACE]
           (fun s t => (length t <= length s)%nat)).
  - done.
  - intros x s' n _ _ IH. rewrite length_drop in IH. simpl. lia.
  - intros x s' H _. rewrite match_spaces in H. by destruct (is_space x).
  - intros x s' _ IH. simpl. lia.
Qed.

Lemma trim_length (s : js_string) : (length (trim s) <= length s)%nat.
Proof.
  unfold trim. destruct (trimEnd_take (trimStart s)) as [j ->].
  destruct (trimStart_drop s) as [k ->].
  rewrite length_take, length_drop. lia.
Qed.

Lemma trim_In (s : js_string) (c : N) : In c (trim s) -> In c s.
Proof.
  unfold trim. destruct (trimEnd_take (trimStart s)) as [j ->].
  destruct (trimStart_drop s) as [k ->].
  intros H. by apply In_take, In_drop in H.
Qed.

Lemma trimStart_filter (keep : N -> bool) (s : js_string) :
  (forall c, is_space c = true -> keep c = false) ->
  List.filter keep (trimStart s) = List.filter keep s.
Proof.
  intros Hk. induction s as [|x s IH]; [done|]. simpl.
  destruct (is_space x) eqn:E; [|done]. by rewrite (Hk x E).
Qed.

Lemma trim_filter (keep : N -> bool) (s : js_string) :
  (forall c, is_space c = true -> keep c = false) ->
  List.filter keep (trim s) = List.filter keep s.
Proof.
  intros Hk. unfold trim, trimEnd.
  rewrite filter_rev, trimStart_filter, filter_rev, rev_involutive by done.
  by apply trimStart_filter.
Qed.

Lemma is_plain_not_space (c : N) : is_space c = true -> is_plain c = false.
Proof. unfold is_plain. by intros ->. Qed.

(** The three passes and [trim], one after the other. *)
Lemma cleanText_passes (s : js_string) :
  cleanText s =
    trim (replace_all re_spaces [SPACE] (replace_all re_empty_parens [] s)).
Proof.
  unfold cleanText. by rewrite blank_lines_id by apply collapse_single_spaced.
Qed.

Lemma no_lparen_no_match (t : js_string) :
  ~ In LPAREN t -> regex_test re_empty_parens t = false.
Proof.
  induction t as [|x t IH]; [done|]. intros H.
  unfold re_empty_parens. rewrite regex_test_cons, match_here_one_mismatch.
  - apply IH. intros ?. apply H. by right.
  - apply N.eqb_neq. intros <-. apply H. by left.
Qed.

(** ** cleanText: further properties *)

Lemma cleanText_shorter (s : js_string) :
  (length (cleanText s) <= length s)%nat.
Proof.
  rewrite cleanText_passes.
  pose proof (trim_length
    (replace_all re_spaces [SPACE] (replace_all re_empty_parens [] s))).
  pose proof (collapse_length (replace_all re_empty_parens [] s)).
  pose proof (remove_length re_empty_parens s). lia.
Qed.

(** X1. Cleaning never makes a text longer. *)
Theorem cleanText_length_le (s : js_string) :
  (length (cleanText s) <= length s)%nat.
Proof. apply cleanText_shorter. Qed.

Lemma cleanText_plain (s : js_string) :
  List.filter is_plain (cleanText s) = List.filter is_plain s.
Proof.
  rewrite cleanText_passes.
  rewrite trim_filter by apply is_plain_not_space.
  rewrite replace_all_filter; [|clear|reflexivity].
  - apply replace_all_filter; [|reflexivity].
    intros c. unfold in_classes, re_empty_parens, is_plain.
    cbn [existsb atom_class]. rewrite !(N.eqb_sym c).
    destruct (is_space c), (LPAREN =? c), (RPAREN =? c); done.
  - intros c. unfold in_classes, re_spaces. cbn [existsb atom_class].
    rewrite orb_false_r. apply is_plain_not_space.
Qed.

(** X2. The code units that are neither whitespace nor parentheses come
    out of [cleanText] all of them, and in the order they went in. *)
Theorem cleanText_keeps_plain (s : js_string) :
  List.filter is_plain (cleanText s) = List.filter is_plain s.
Proof. apply cleanText_plain. Qed.

Lemma cleanText_origin (s : js_string) :
  Forall (fun c => c = SPACE \/ In c s) (cleanText s).
Proof.
  apply List.Forall_forall. intros c Hc. rewrite cleanText_passes in Hc.
  apply trim_In, replace_all_In in Hc as [[<-|[]]|Hc]; [by left|].
  apply replace_all_In in Hc as [[]|Hc]. by right.
Qed.

(** X3. Every code unit of the cleaned text is a plain space or occurs
    in the input. *)
Theorem cleanText_chars_from_input (s : js_string) :
  Forall (fun c => c = SPACE \/ In c s) (cleanText s).
Proof. apply cleanText_origin. Qed.

(** X4. A text of whitespace only, the empty text among them, is cleaned
    to the empty text. *)
Theorem cleanText_whitespace_only (s : js_string) :
  Forall (fun c => is_space c = true) s -> cleanText s = [].
Proof.
  intros Hs. destruct (cleanText_cleaned s) as (_ & Hhead & _).
  pose proof (cleanText_origin s) as Hc.
  destruct (cleanText s) as [|x t]; [done|]. simpl in Hhead.
  inversion Hc as [|? ? [->|Hx] _]; subst; [done|].
  rewrite List.Forall_forall in Hs. by rewrite (Hs x Hx) in Hhead.
Qed.

Lemma cleanText_whitespace_only_witness :
  cleanText ([9; LF; 13; SPACE; 160; 8232; 65279]) = [].
Proof.
  apply cleanText_whitespace_only. repeat constructor.
Defined.

(** X5. On a text without any opening parenthesis cleaning twice is the
    same as cleaning once. *)
Theorem cleanText_idempotent_no_lparen (s : js_string) :
  ~ In LPAREN s -> cleanText (cleanText s) = cleanText s.
Proof.
  intros Hs. apply cleanText_fixed; [apply cleanText_cleaned|].
  apply replace_all_no_match, no_lparen_no_match. intros H.
  pose proof (cleanText_origin s) as Hc.
  rewrite List.Forall_forall in Hc. by destruct (Hc _ H).
Qed.

Lemma cleanText_idempotent_no_lparen_witness :
  cleanText (cleanText (js " a )  b" ++ [LF; LF; LF] ++ js ") c "))
  = cleanText (js " a )  b" ++ [LF; LF; LF] ++ js ") c ").
Proof.
  apply cleanText_idempotent_no_lparen. vm_compute.
  intros H. repeat (destruct H as [H|H]; [discriminate H|]). exact H.
Defined.

(** ** How much text the fallback can return *)

Lemma elements_are_elements (n e : node) :
  In e (elements_of n) -> is_element e = true.
Proof.
  induction n as [| |ns name attrs children IH] using node_ind; simpl; try done.
  intros [<-|H]; [done|].
  apply in_flat_map in H as (c & Hc & He).
  rewrite List.Forall_forall in IH. by apply (IH c).
Qed.

Lemma textContent_element (e : node) :
  is_element e = true -> textContent e = descendant_text e.
Proof. by destruct e. Qed.

Lemma flat_map_length_le {A} (f g : A -> js_string) (l : list A) :
  Forall (fun c => (length (f c) <= length (g c))%nat) l ->
  (length (flat_map f l) <= length (flat_map g l))%nat.
Proof.
  induction 1 as [|c l Hc _ IH]; [done|]. simpl.
  rewrite !length_app. lia.
Qed.

Lemma flat_map_length_In {A} (f : A -> js_string) (l : list A) (c : A) :
  In c l -> (length (f c) <= length (flat_map f l))%nat.
Proof.
  induction l as [|x l IH]; [done|]. simpl. rewrite length_app.
  intros [<-|H]; [lia|]. apply IH in H. lia.
Qed.

Lemma descendant_text_sub (n e : node) :
  In e (elements_of n) ->
  (length (descendant_text e) <= length (descendant_text n))%nat.
Proof.
  induction n as [| |ns name attrs children IH] using node_ind; try done.
  intros [<-|H]; [done|]. simpl in H.
  apply in_flat_map in H as (c & Hc & He).
  rewrite List.Forall_forall in IH. specialize (IH c Hc He).
  pose proof (flat_map_length_In descendant_text children c Hc).
  simpl. lia.
Qed.

Lemma removed_children_text (p : node -> bool) (children : list node) :
  Forall (fun c => (length (descendant_text (remove_matching p c))
                    <= length (descendant_text c))%nat) children ->
  (length (flat_map descendant_text
             (flat_map (fun c => if p c then [] else [remove_matching p c])
                children))
   <= length (flat_map descendant_text children))%nat.
Proof.
  induction 1 as [|c l Hc _ IH]; [done|]. simpl.
  rewrite flat_map_app, !length_app.
  destruct (p c); simpl; [lia|]. rewrite app_nil_r. lia.
Qed.

Lemma remove_matching_text (p : node -> bool) (n : node) :
  (length (descendant_text (remove_matching p n))
   <= length (descendant_text n))%nat.
Proof.
  induction n as [| |ns name attrs children IH] using node_ind; try done.
  simpl. by apply removed_children_text.
Qed.

Lemma remove_all_text (m : matcher) (sel : selector) (d : Document) :
  (length (document_text (remove_all m sel d)) <= length (document_text d))%nat.
Proof.
  unfold document_text, remove_all. simpl. apply removed_children_text.
  apply List.Forall_forall. intros c _. apply remove_matching_text.
Qed.

Lemma document_elements_text (d : Document) (e : node) :
  In e (document_elements d) ->
  (length (descendant_text e) <= length (document_text d))%nat.
Proof.
  unfold document_elements, document_text. intros H.
  apply in_flat_map in H as (c & Hc & He).
  pose proof (descendant_text_sub c e He).
  pose proof (flat_map_length_In descendant_text _ c Hc). lia.
Qed.

Lemma head_filter_In {A} (f : A -> bool) (l : list A) (x : A) :
  head (List.filter f l) = Some x -> In x l /\ f x = true.
Proof.
  intros H. apply filter_In. destruct (List.filter f l); [done|].
  injection H as ->. by left.
Qed.

Lemma body_In (d : Document) (e : node) :
  body d = Some e -> In e (document_elements d).
Proof.
  unfold body, documentElement, document_elements.
  destruct (head _) as [[| |[] name attrs children]|] eqn:Hroot; try done.
  destruct (str_eqb name (js "html")); [|done]. intros He.
  apply head_filter_In in Hroot as [Hroot _].
  apply head_filter_In in He as [He Hb].
  apply in_flat_map. eexists. split; [exact Hroot|]. simpl. right.
  apply in_flat_map. exists e. split; [done|].
  destruct e as [| |ns l a ch]; try done. by left.
Qed.

Lemma or_else_Some {A} (Q : A -> Prop) (a b : option A) (x : A) :
  (forall y, a = Some y -> Q y) -> (forall y, b = Some y -> Q y) ->
  a <||> b = Some x -> Q x.
Proof. destruct a; simpl; eauto. Qed.

Lemma mainContent_In (L : Libraries) (d : Document) (e : node) :
  mainContent L d = Some e -> In e (document_elements d).
Proof.
  unfold mainContent. revert e.
  do 5 (intros e;
        apply (or_else_Some (fun y => In y (document_elements d)));
        [intros y Hy; by apply querySelector_In in Hy as [Hy _]|]; clear e).
  intros e. apply body_In.
Qed.

Lemma fallback_text_le (L : Libraries) (html url : js_string) :
  (length (fallback_text L html url)
   <= length (document_text
                (remove_all (selector_all L) unwanted (jsdom_parse L html url))))%nat.
Proof.
  unfold fallback_text, fallback_root.
  destruct (mainContent _) as [e|] eqn:E; [|simpl; lia].
  apply mainContent_In in E.
  pose proof (cleanText_shorter (textContent e)) as H1.
  rewrite textContent_element in H1 |- *
    by (unfold document_elements in E;
        apply in_flat_map in E as (c & _ & He);
        by apply (elements_are_elements c)).
  pose proof (document_elements_text _ e E). lia.
Qed.

(** ** fallbackExtraction and extractContent: further properties *)

(** X6. On the fallback path the content is never longer than the text
    left in the document once the unwanted elements are removed, which is
    never longer than the text of the whole document; so when less than 100
    code units of text are left the call fails with the
    insufficient-content error. *)
Theorem fallback_needs_enough_text (L : Libraries) (page : Page)
    (url : js_string) (h : store) (finalUrl html : js_string) :
  page url = Loaded finalUrl html ->
  fst (primary L finalUrl html) = None ->
  let doc := jsdom_parse L html finalUrl in
  (length (fallback_text L html finalUrl)
   <= length (document_text (remove_all (selector_all L) unwanted doc)))%nat
  /\ (length (document_text (remove_all (selector_all L) unwanted doc))
      <= length (document_text doc))%nat
  /\ ((length (document_text (remove_all (selector_all L) unwanted doc))
         < MIN_CONTENT_LENGTH)%nat ->
      fst (extractContent L page url h)
      = Thrown (insufficient_content (length (fallback_text L html finalUrl)))).
Proof.
  intros Hp Hnull doc.
  split; [apply fallback_text_le|]. split; [apply remove_all_text|].
  intros Hlt. pose proof (fallback_text_le L html finalUrl) as Hle.
  rewrite (extractContent_run L _ _ _ _ _ Hp). simpl.
  unfold quality_gate, title_and_content. rewrite Hnull. simpl.
  fold doc in Hle.
  assert (E : (length (fallback_text L html finalUrl) <? MIN_CONTENT_LENGTH)%nat
              = true) by (apply Nat.ltb_lt; lia).
  by rewrite E.
Qed.

Lemma fallback_needs_enough_text_witness :
  fst (extractContent MoreSamples.libs_sidebar MoreSamples.page_sidebar
         Samples.url ∅)
  = Thrown (insufficient_content 0).
Proof.
  refine (proj2 (proj2 (fallback_needs_enough_text MoreSamples.libs_sidebar
                          MoreSamples.page_sidebar Samples.url ∅ Samples.url
                          MoreSamples.html_sidebar _ _)) _).
  - reflexivity.
  - reflexivity.
  - vm_compute. lia.
Defined.

(** X7. The only errors [extractContent] throws are the rejection of the
    navigation, passed on as it is, and the insufficient-content error, the
    latter with the length of the cleaned content, which is below 100. *)
Theorem extractContent_errors (L : Libraries) (page : Page) (url : js_string)
    (h : store) (e : Error) :
  fst (extractContent L page url h) = Thrown e ->
  page url = Rejected e
  \/ exists finalUrl html,
      page url = Loaded finalUrl html
      /\ (length (snd (title_and_content L finalUrl html))
          < MIN_CONTENT_LENGTH)%nat
      /\ e = insufficient_content
               (length (snd (title_and_content L finalUrl html))).
Proof.
  destruct (page url) as [e'|f html] eqn:Hp.
  - rewrite (extractContent_rejected L _ _ _ e' Hp). simpl.
    intros [= <-]. by left.
  - rewrite (extractContent_run L _ _ _ f html Hp). simpl.
    unfold quality_gate. destruct (_ <? _)%nat eqn:E; [|done].
    intros [= <-]. right. exists f, html. apply Nat.ltb_lt in E. done.
Qed.

Lemma extractContent_errors_witness :
  Samples.page_main_first Samples.url
  = Rejected (insufficient_content 2)
  \/ exists finalUrl html,
      Samples.page_main_first Samples.url = Loaded finalUrl html
      /\ (length (snd (title_and_content Samples.libs_main_first finalUrl html))
          < MIN_CONTENT_LENGTH)%nat
      /\ insufficient_content 2
         = insufficient_content
             (length (snd (title_and_content Samples.libs_main_first
                             finalUrl html))).
Proof.
  apply (extractContent_errors Samples.libs_main_first Samples.page_main_first
           Samples.url ∅).
  reflexivity.
Defined.

(** X8. The fallback reads a document parsed anew: whatever Readability
    does to the document it is given, the content, the final URL and the
    errors of a call stay the same; only the title can change. *)
Theorem readability_edits_do_not_reach_content (L : Libraries)
    (edit : Document -> Document) (page : Page) (url : js_string)
    (h h' : store) :
  let L' := {| jsdom_parse := jsdom_parse L;
               readability_parse :=
                 fun d => (fst (readability_parse L d), edit d);
               turndown := turndown L;
               selector_all := selector_all L;
               selector_first := selector_first L |} in
  match fst (extractContent L page url h),
        fst (extractContent L' page url h') with
  | Returned r, Returned r' =>
      finalUrl r = finalUrl r' /\ content r = content r'
  | Thrown e, Thrown e' => e = e'
  | _, _ => False
  end.
Proof.
  intros L'. destruct (page url) as [e|f html] eqn:Hp.
  - by rewrite !(extractContent_rejected _ _ _ _ e Hp).
  - rewrite !(extractContent_run _ _ _ _ f html Hp). simpl.
    assert (Hc : snd (title_and_content L' f html)
                 = snd (title_and_content L f html)).
    { unfold title_and_content, primary, fallback_text, fallback_root. simpl.
      by destruct (fst (readability_parse L (jsdom_parse L html f))). }
    unfold quality_gate. rewrite Hc.
    by destruct (_ <? _)%nat.
Qed.

(** ** main *)

Lemma uint_digits (u : Decimal.uint) :
  Forall (fun c => is_digit c = true) (js (NilEmpty.string_of_uint u)).
Proof. induction u; simpl; by constructor. Qed.

Lemma includes_cons (pat s : js_string) (x : N) :
  includes pat (x :: s) = starts_with pat (x :: s) || includes pat s.
Proof. done. Qed.

Lemma includes_connect_digits (d rest : js_string) :
  Forall (fun c => is_digit c = true) d ->
  includes (js "connect") (d ++ rest) = includes (js "connect") rest.
Proof.
  induction 1 as [|x d Hx _ IH]; [done|].
  rewrite <- app_comm_cons, includes_cons, IH.
  replace (starts_with (js "connect") (x :: d ++ rest)) with false; [done|].
  symmetry. change (js "connect") with (99 :: js "onnect").
  cbn [starts_with]. apply andb_false_intro1, N.eqb_neq. intros <-.
  discriminate Hx.
Qed.

(** The insufficient-content message does not contain [connect]. *)
Lemma insufficient_content_not_connect (n : nat) :
  includes (js "connect") (message (insufficient_content n)) = false.
Proof.
  unfold insufficient_content, message.
  change (includes (js "connect")
            (js "Insufficient content extracted (" ++ decimal n
             ++ js " chars, minimum " ++ decimal MIN_CONTENT_LENGTH ++ js ")"))
    with (includes (js "connect")
            (decimal n
             ++ js " chars, minimum " ++ decimal MIN_CONTENT_LENGTH ++ js ")")).
  rewrite includes_connect_digits by apply uint_digits. reflexivity.
Qed.

Lemma help_requested (args : list js_string) :
  In (js "--help") args \/ args = [] ->
  existsb (str_eqb (js "--help")) args || (length args =? 0)%nat = true.
Proof.
  intros [H| ->]; [|done]. apply orb_true_intro. left.
  apply existsb_exists. exists (js "--help"). split; [done|].
  by apply bool_decide_eq_true.
Qed.

Lemma help_not_requested (args : list js_string) :
  ~ In (js "--help") args -> args <> [] ->
  existsb (str_eqb (js "--help")) args || (length args =? 0)%nat = false.
Proof.
  intros H Hne. apply orb_false_intro.
  - apply not_true_is_false. intros E.
    apply existsb_exists in E as (a & Ha & E).
    apply bool_decide_eq_true in E. by subst a.
  - by destruct args.
Qed.

Lemma find_after_flags (flags rest : list js_string) :
  Forall (fun a => starts_with (js "--") a = true) flags ->
  List.find (fun arg => negb (starts_with (js "--") arg)) (flags ++ rest)
  = List.find (fun arg => negb (starts_with (js "--") arg)) rest.
Proof.
  induction 1 as [|a flags Ha _ IH]; [done|].
  rewrite <- app_comm_cons. cbn [List.find]. by rewrite Ha.
Qed.

(** X9. With [--help] anywhere among the arguments, or with no argument
    at all, the script prints the usage text and exits with status 0,
    whatever else is given and whatever the state of the browser. *)
Theorem main_help (L : Libraries) (w : World) (args : list js_string) :
  In (js "--help") args \/ args = [] ->
  run (main L w args)
  = {| stdout := [help_text]; stderr := []; exit_code := 0; uncaught := None |}.
Proof.
  intros H. unfold run, main, pbind at 1. by rewrite (help_requested _ H).
Qed.

Lemma main_help_witness :
  run (main Samples.libs_article
         {| puppeteer_connect := Thrown dangling; timer_fires := true |}
         [js "https://x.test/a"; js "--help"])
  = {| stdout := [help_text]; stderr := []; exit_code := 0; uncaught := None |}.
Proof.
  apply main_help. left. right. left. reflexivity.
Defined.

(** X10. When the arguments, [--help] not among them, are all options
    (they start with [--]), or when the first one that is not an option is
    the empty string, the script reports that the URL is required on the
    error stream, prints the usage text, and exits with status 0. *)
Theorem main_missing_url (L : Libraries) (w : World)
    (flags rest : list js_string) :
  Forall (fun a => starts_with (js "--") a = true) flags ->
  ~ In (js "--help") (flags ++ rest) ->
  flags ++ rest <> [] ->
  rest = [] \/ (exists rest', rest = [] :: rest') ->
  run (main L w (flags ++ rest))
  = {| stdout := [help_text]; stderr := [js "Error: URL is required"];
       exit_code := 0; uncaught := None |}.
Proof.
  intros Hflags Hhelp Hne Hrest. unfold run, main, pbind at 1.
  rewrite (help_not_requested _ Hhelp Hne).
  unfold pret at 1, pbind at 1. rewrite (find_after_flags _ _ Hflags).
  by destruct Hrest as [->|[rest' ->]].
Qed.

Lemma main_missing_url_witness :
  run (main Samples.libs_article
         {| puppeteer_connect := Thrown dangling; timer_fires := false |}
         ([js "--verbose"] ++ [[]; js "https://x.test/a"]))
  = {| stdout := [help_text]; stderr := [js "Error: URL is required"];
       exit_code := 0; uncaught := None |}.
Proof.
  apply main_missing_url.
  - repeat constructor.
  - vm_compute. intros H.
    repeat (destruct H as [H|H]; [discriminate H|]). exact H.
  - discriminate.
  - right. eexists. reflexivity.
Defined.

(** X11. The URL is the first argument that does not start with [--]:
    options before it (other than [--help]) and anything after it change
    nothing. *)
Theorem main_url_selection (L : Libraries) (w : World)
    (flags rest : list js_string) (url : js_string) :
  Forall (fun a => starts_with (js "--") a = true) flags ->
  starts_with (js "--") url = false ->
  url <> [] ->
  ~ In (js "--help") (flags ++ url :: rest) ->
  main L w (flags ++ url :: rest) = main L w [url].
Proof.
  intros Hflags Hurl Hne Hhelp. unfold main.
  rewrite (help_not_requested _ Hhelp) by (by destruct flags).
  rewrite help_not_requested.
  - rewrite (find_after_flags _ _ Hflags). cbn [List.find]. by rewrite Hurl.
  - intros [->|[]]. apply Hhelp, in_or_app. right. by left.
  - done.
Qed.

Lemma main_url_selection_witness :
  main Samples.libs_article
    {| puppeteer_connect := Thrown dangling; timer_fires := false |}
    ([js "--fast"] ++ js "https://x.test/a" :: [js "other"; js "--x"])
  = main Samples.libs_article
      {| puppeteer_connect := Thrown dangling; timer_fires := false |}
      [js "https://x.test/a"].
Proof.
  apply main_url_selection.
  - repeat constructor.
  - reflexivity.
  - discriminate.
  - vm_compute. intros H.
    repeat (destruct H as [H|H]; [discriminate H|]). exact H.
Defined.

Lemma main_from_url (L : Libraries) (w : World) (args : list js_string)
    (c : N) (u : js_string) :
  existsb (str_eqb (js "--help")) args || (length args =? 0)%nat = false ->
  List.find (fun arg => negb (starts_with (js "--") arg)) args = Some (c :: u) ->
  timer_fires w = false ->
  run (main L w args)
  = run match puppeteer_connect w with
        | Thrown error => main_catch None error
        | Returned browser =>
            try_catch (main_try L browser (c :: u)) (main_catch (Some browser))
        end.
Proof.
  intros Hhelp Hfind Htimer. unfold run, main, pbind at 1.
  rewrite Hhelp. unfold pret at 1, pbind at 1. rewrite Hfind.
  unfold pret at 1. by rewrite Htimer.
Qed.

Lemma run_main_catch (browser : option Browser) (e : Error)
    (c : Console) :
  main_catch browser e c
  = (match browser with
     | Some b =>
         match disconnect b with
         | Returned _ => Exit 1
         | Thrown e' => Raise e'
         end
     | None => Exit 1
     end,
     {| out := out c; err := err c ++ error_report e |}).
Proof.
  unfold main_catch, error_report, pbind, console_error, process_exit, settle,
    pret.
  destruct (includes (js "connect") (message e)); simpl.
  - rewrite <- !app_assoc. simpl.
    destruct browser as [b|]; [destruct (disconnect b)|]; done.
  - destruct browser as [b|]; [destruct (disconnect b)|]; done.
Qed.

Lemma run_main_try (L : Libraries) (b : Browser) (url : js_string)
    (c : Console) :
  main_try L b url c
  = match open_page b with
    | Thrown e => (Raise e, c)
    | Returned page =>
        match fst (extractContent L page url ∅) with
        | Thrown e => (Raise e, c)
        | Returned r =>
            (match disconnect b with
             | Returned _ => Exit 0
             | Thrown e => Raise e
             end,
             {| out := out c ++ result_lines r; err := err c |})
        end
    end.
Proof.
  unfold main_try, open_page, result_lines, pbind, console_log, process_exit,
    settle, pret.
  destruct (pages b) as [[|p ps]|e]; [destruct (newPage b) as [p|e]| |];
    try done.
  - destruct (fst (extractContent L p url ∅)); [|done]. simpl.
    rewrite <- !app_assoc. simpl. by destruct (disconnect b).
  - destruct (fst (extractContent L p url ∅)); [|done]. simpl.
    rewrite <- !app_assoc. simpl. by destruct (disconnect b).
Qed.

Lemma main_usage_error (L : Libraries) (w : World) (args : list js_string) :
  existsb (str_eqb (js "--help")) args || (length args =? 0)%nat = false ->
  (List.find (fun arg => negb (starts_with (js "--") arg)) args = None
   \/ List.find (fun arg => negb (starts_with (js "--") arg)) args = Some []) ->
  run (main L w args)
  = {| stdout := [help_text]; stderr := [js "Error: URL is required"];
       exit_code := 0; uncaught := None |}.
Proof.
  intros Hhelp Hfind. unfold run, main, pbind at 1. rewrite Hhelp.
  unfold pret at 1, pbind at 1. by destruct Hfind as [-> | ->].
Qed.

Lemma main_timeout (L : Libraries) (w : World) (args : list js_string)
    (c : N) (u : js_string) :
  existsb (str_eqb (js "--help")) args || (length args =? 0)%nat = false ->
  List.find (fun arg => negb (starts_with (js "--") arg)) args = Some (c :: u) ->
  timer_fires w = true ->
  run (main L w args)
  = {| stdout := [];
       stderr := [BALLOT_X :: js " Global timeout (30s) exceeded"];
       exit_code := 1; uncaught := None |}.
Proof.
  intros Hhelp Hfind Htimer. unfold run, main, pbind at 1.
  rewrite Hhelp. unfold pret at 1, pbind at 1. rewrite Hfind.
  unfold pret at 1. by rewrite Htimer.
Qed.

(** What a run that got as far as connecting shows. *)
Lemma run_connected (L : Libraries) (w : World) (url : js_string) :
  run match puppeteer_connect w with
      | Thrown error => main_catch None error
      | Returned browser =>
          try_catch (main_try L browser url) (main_catch (Some browser))
      end
  = match puppeteer_connect w with
    | Thrown e =>
        {| stdout := []; stderr := error_report e; exit_code := 1;
           uncaught := None |}
    | Returned b =>
        let failed (printed : list js_string) (e : Error) :=
          {| stdout := printed; stderr := error_report e; exit_code := 1;
             uncaught := match disconnect b with
                         | Returned _ => None
                         | Thrown e' => Some e'
                         end |} in
        match open_page b with
        | Thrown e => failed [] e
        | Returned page =>
            match fst (extractContent L page url ∅) with
            | Thrown e => failed [] e
            | Returned r =>
                match disconnect b with
                | Returned _ =>
                    {| stdout := result_lines r; stderr := []; exit_code := 0;
                       uncaught := None |}
                | Thrown e => failed (result_lines r) e
                end
            end
        end
    end.
Proof.
  unfold run. destruct (puppeteer_connect w) as [b|e].
  - unfold try_catch. rewrite run_main_try.
    destruct (open_page b) as [page|e].
    + destruct (fst (extractContent L page url ∅)) as [r|e].
      * destruct (disconnect b) as [[]|e] eqn:Hd; [done|].
        rewrite run_main_catch, Hd. done.
      * rewrite run_main_catch. by destruct (disconnect b).
    + rewrite run_main_catch. by destruct (disconnect b).
  - by rewrite run_main_catch.
Qed.

Lemma returned_single_line (L : Libraries) (page : Page) (url : js_string)
    (h : store) (r : ExtractionResult) :
  fst (extractContent L page url h) = Returned r ->
  (MIN_CONTENT_LENGTH <= length (content r))%nat
  /\ Forall (fun c => c <> LF) (content r).
Proof.
  intros Hr. apply returned_content in Hr as (html & _ & _ & Hc & Hlen).
  split; [done|].
  destruct (title_and_content_cleaned L (finalUrl r) html) as [s Hs].
  rewrite Hc, Hs. apply cleanText_no_LF.
Qed.

(** X12. When the script exits with status 0 it has printed either the
    usage text or the four lines of a result (URL, title, an empty line,
    the content) and then nothing on the error stream; that content has at
    least 100 code units and no line feed. *)
Theorem main_exit_zero (L : Libraries) (w : World) (args : list js_string) :
  exit_code (run (main L w args)) = 0%nat ->
  stdout (run (main L w args)) = [help_text]
  \/ exists r,
      stdout (run (main L w args)) = result_lines r
      /\ stderr (run (main L w args)) = []
      /\ uncaught (run (main L w args)) = None
      /\ (MIN_CONTENT_LENGTH <= length (content r))%nat
      /\ Forall (fun c => c <> LF) (content r).
Proof.
  destruct (existsb (str_eqb (js "--help")) args || (length args =? 0)%nat)
    eqn:Hhelp.
  { intros _. left. unfold run, main, pbind at 1. by rewrite Hhelp. }
  destruct (List.find (fun arg => negb (starts_with (js "--") arg)) args)
    as [[|c u]|] eqn:Hfind.
  - intros _. left. by rewrite main_usage_error by auto.
  - destruct (timer_fires w) eqn:Htimer.
    { by rewrite (main_timeout L w args c u). }
    rewrite (main_from_url L w args c u), run_connected by done.
    destruct (puppeteer_connect w) as [b|e]; [|done]. cbv zeta.
    destruct (open_page b) as [page|e]; [|done].
    destruct (fst (extractContent L page (c :: u) ∅)) as [r|e] eqn:Hr; [|done].
    destruct (disconnect b) as [[]|e]; [|done].
    intros _. right. exists r. simpl.
    apply returned_single_line in Hr. tauto.
  - intros _. left. by rewrite main_usage_error by auto.
Qed.

Lemma main_exit_zero_witness :
  stdout (run (main Samples.libs_article
                 (MoreSamples.world_with Samples.page_article) [Samples.url]))
  = [help_text]
  \/ exists r,
      stdout (run (main Samples.libs_article
                     (MoreSamples.world_with Samples.page_article)
                     [Samples.url])) = result_lines r
      /\ stderr (run (main Samples.libs_article
                        (MoreSamples.world_with Samples.page_article)
                        [Samples.url])) = []
      /\ uncaught (run (main Samples.libs_article
                          (MoreSamples.world_with Samples.page_article)
                          [Samples.url])) = None
      /\ (MIN_CONTENT_LENGTH <= length (content r))%nat
      /\ Forall (fun c => c <> LF) (content r).
Proof.
  apply main_exit_zero. vm_compute. reflexivity.
Defined.

Ltac exit_facts :=
  simpl; split;
  [auto
  |split; [done|intros ?; first [done|split; [done|auto; done]]]].

(** X13. When the browser can be disconnected, the script ends with
    status 0 or 1, and a run that ends with status 1 has printed nothing on
    standard output and at least one line on the error stream. *)
Theorem main_failure_prints_no_result (L : Libraries) (w : World)
    (args : list js_string) :
  (forall b, puppeteer_connect w = Returned b -> disconnect b = Returned tt) ->
  (exit_code (run (main L w args)) = 0%nat
   \/ exit_code (run (main L w args)) = 1%nat)
  /\ uncaught (run (main L w args)) = None
  /\ (exit_code (run (main L w args)) = 1%nat ->
      stdout (run (main L w args)) = []
      /\ stderr (run (main L w args)) <> []).
Proof.
  intros Hd.
  destruct (existsb (str_eqb (js "--help")) args || (length args =? 0)%nat)
    eqn:Hhelp.
  { unfold run, main, pbind at 1. rewrite Hhelp. exit_facts. }
  destruct (List.find (fun arg => negb (starts_with (js "--") arg)) args)
    as [[|c u]|] eqn:Hfind.
  - rewrite main_usage_error by auto. exit_facts.
  - destruct (timer_fires w) eqn:Htimer.
    { rewrite (main_timeout L w args c u) by done. exit_facts. }
    rewrite (main_from_url L w args c u), run_connected by done.
    assert (Hrep : forall e, error_report e <> []).
    { intros e. unfold error_report. by destruct (includes _ _). }
    destruct (puppeteer_connect w) as [b|e]; [|exit_facts].
    rewrite (Hd b eq_refl). cbv zeta.
    destruct (open_page b) as [page|e]; [|exit_facts].
    destruct (fst (extractContent L page (c :: u) ∅)) as [r|e];
      exit_facts.
  - rewrite main_usage_error by auto. exit_facts.
Qed.

Lemma main_failure_prints_no_result_witness :
  stdout (run (main Samples.libs_main_first
                 (MoreSamples.world_with Samples.page_main_first)
                 [Samples.url])) = []
  /\ stderr (run (main Samples.libs_main_first
                    (MoreSamples.world_with Samples.page_main_first)
                    [Samples.url])) <> [].
Proof.
  refine (proj2 (proj2 (main_failure_prints_no_result Samples.libs_main_first
                          (MoreSamples.world_with Samples.page_main_first)
                          [Samples.url] _)) _).
  - intros b [= <-]. reflexivity.
  - vm_compute. reflexivity.
Defined.

Lemma single_url_args (url : js_string) :
  starts_with (js "--") url = false -> url <> [] ->
  existsb (str_eqb (js "--help")) [url] || (length [url] =? 0)%nat = false
  /\ exists c u,
      url = c :: u
      /\ List.find (fun arg => negb (starts_with (js "--") arg)) [url]
         = Some (c :: u).
Proof.
  intros Hurl Hne. split.
  - apply help_not_requested; [|done]. intros [->|[]]. discriminate Hurl.
  - destruct url as [|c u]; [done|]. exists c, u. split; [done|].
    cbn [List.find]. by rewrite Hurl.
Qed.

(** X14. A page whose cleaned content is too short: the script prints
    nothing on standard output, writes the single line
    [Content extraction failed: Insufficient content extracted (n chars,
    minimum 100)] on the error stream, never the could-not-connect hint,
    and exits with status 1. *)
Theorem main_reports_insufficient_content (L : Libraries) (w : World)
    (url : js_string) (b : Browser) (page : Page)
    (finalUrl html : js_string) :
  starts_with (js "--") url = false -> url <> [] ->
  timer_fires w = false ->
  puppeteer_connect w = Returned b ->
  open_page b = Returned page ->
  disconnect b = Returned tt ->
  page url = Loaded finalUrl html ->
  (length (snd (title_and_content L finalUrl html)) < MIN_CONTENT_LENGTH)%nat ->
  run (main L w [url])
  = {| stdout := [];
       stderr :=
         [BALLOT_X :: js " Content extraction failed: Insufficient content extracted ("
          ++ decimal (length (snd (title_and_content L finalUrl html)))
          ++ js " chars, minimum 100)"];
       exit_code := 1; uncaught := None |}.
Proof.
  intros Hurl Hne Htimer Hconn Hpage Hdisc Hload Hshort.
  destruct (single_url_args url Hurl Hne) as (Hhelp & c & u & -> & Hfind).
  rewrite (main_from_url L w _ c u), run_connected by done.
  rewrite Hconn. cbv zeta. rewrite Hpage.
  rewrite (extractContent_run L _ _ _ _ _ Hload). simpl fst.
  unfold quality_gate. apply Nat.ltb_lt in Hshort. rewrite Hshort, Hdisc.
  unfold error_report. rewrite insufficient_content_not_connect.
  reflexivity.
Qed.

Lemma main_reports_insufficient_content_witness :
  run (main Samples.libs_main_first
         (MoreSamples.world_with Samples.page_main_first) [Samples.url])
  = {| stdout := [];
       stderr :=
         [BALLOT_X :: js " Content extraction failed: Insufficient content extracted ("
          ++ decimal (length (snd (title_and_content Samples.libs_main_first
                                     Samples.url Samples.html_main_first)))
          ++ js " chars, minimum 100)"];
       exit_code := 1; uncaught := None |}.
Proof.
  apply (main_reports_insufficient_content Samples.libs_main_first
           (MoreSamples.world_with Samples.page_main_first) Samples.url
           (MoreSamples.browser_with Samples.page_main_first)
           Samples.page_main_first Samples.url Samples.html_main_first).
  - reflexivity.
  - discriminate.
  - reflexivity.
  - reflexivity.
  - reflexivity.
  - reflexivity.
  - reflexivity.
  - vm_compute. lia.
Defined.

(** X15. An error raised once the browser is connected (by
    [browser.pages()], [browser.newPage()] or the navigation) whose message
    contains [connect] is reported with the three lines of the
    could-not-connect hint; the message of the error itself is not
    printed. *)
Theorem main_connect_hint (L : Libraries) (w : World) (url : js_string)
    (b : Browser) (e : Error) :
  starts_with (js "--") url = false -> url <> [] ->
  timer_fires w = false ->
  puppeteer_connect w = Returned b ->
  disconnect b = Returned tt ->
  (open_page b = Thrown e
   \/ exists page, open_page b = Returned page /\ page url = Rejected e) ->
  includes (js "connect") (message e) = true ->
  run (main L w [url])
  = {| stdout := [];
       stderr :=
         [BALLOT_X :: js " Could not connect to Chrome on localhost:9222";
          js "  Make sure Chrome is running with remote debugging enabled.";
          js "  Run: node browser-start.js"];
       exit_code := 1; uncaught := None |}.
Proof.
  intros Hurl Hne Htimer Hconn Hdisc Hfail Hinc.
  destruct (single_url_args url Hurl Hne) as (Hhelp & c & u & -> & Hfind).
  rewrite (main_from_url L w _ c u), run_connected by done.
  rewrite Hconn. cbv zeta. rewrite Hdisc.
  destruct Hfail as [->|(page & -> & Hrej)].
  - unfold error_report. by rewrite Hinc.
  - rewrite (extractContent_rejected L _ _ _ e Hrej). simpl fst.
    unfold error_report. by rewrite Hinc.
Qed.

Lemma main_connect_hint_witness :
  run (main Samples.libs_article
         (MoreSamples.world_with MoreSamples.page_disconnected) [Samples.url])
  = {| stdout := [];
       stderr :=
         [BALLOT_X :: js " Could not connect to Chrome on localhost:9222";
          js "  Make sure Chrome is running with remote debugging enabled.";
          js "  Run: node browser-start.js"];
       exit_code := 1; uncaught := None |}.
Proof.
  apply (main_connect_hint Samples.libs_article
           (MoreSamples.world_with MoreSamples.page_disconnected) Samples.url
           (MoreSamples.browser_with MoreSamples.page_disconnected)
           MoreSamples.disconnected).
  - reflexivity.
  - discriminate.
  - reflexivity.
  - reflexivity.
  - reflexivity.
  - right. eexists. split; reflexivity.
  - reflexivity.
Defined.

(** ** cleanText as words joined by single spaces *)

Lemma split_when_spaces (cur ws : js_string) :
  Forall (fun c => is_space c = true) ws ->
  split_when is_space cur ws = match cur with [] => [] | _ => [rev cur] end.
Proof.
  intros H. revert cur. induction H as [|x ws Hx _ IH]; intros cur; [done|].
  simpl. rewrite Hx, IH. by destruct cur.
Qed.

Lemma split_when_app_spaces (cur s ws : js_string) :
  Forall (fun c => is_space c = true) ws ->
  split_when is_space cur (s ++ ws) = split_when is_space cur s.
Proof.
  intros H. revert cur. induction s as [|x s IH]; intros cur; simpl.
  - by apply split_when_spaces.
  - rewrite !IH. done.
Qed.

Lemma trimStart_split (s : js_string) :
  exists ws, s = ws ++ trimStart s /\ Forall (fun c => is_space c = true) ws.
Proof.
  induction s as [|x s (ws & Hs & Hws)]; [by exists []|]. simpl.
  destruct (is_space x) eqn:E; [|by exists []].
  exists (x :: ws). split; [by rewrite <- app_comm_cons, <- Hs|by constructor].
Qed.

Lemma words_trimStart (s : js_string) : words (trimStart s) = words s.
Proof.
  unfold words. induction s as [|x s IH]; [done|]. simpl.
  destruct (is_space x) eqn:E; [done|]. simpl. by rewrite E.
Qed.

Lemma words_trimEnd (s : js_string) : words (trimEnd s) = words s.
Proof.
  destruct (trimStart_split (rev s)) as (ws & Hs & Hws).
  apply (f_equal (@rev N)) in Hs. rewrite rev_involutive, rev_app_distr in Hs.
  fold (trimEnd s) in Hs. rewrite Hs at 2. unfold words.
  rewrite split_when_app_spaces; [done|].
  apply List.Forall_forall. intros c Hc. apply in_rev in Hc.
  rewrite List.Forall_forall in Hws. by apply Hws.
Qed.

Lemma split_when_skip (s : js_string) :
  split_when is_space [] (drop (ws_len s) s) = split_when is_space [] s.
Proof.
  induction s as [|x s IH]; [done|]. simpl.
  destruct (is_space x) eqn:E; simpl; [done|]. by rewrite E.
Qed.

Lemma split_when_cons (p : N -> bool) (cur s : js_string) (x : N) :
  split_when p cur (x :: s)
  = if p x then
      match cur with
      | [] => split_when p [] s
      | _ => rev cur :: split_when p [] s
      end
    else split_when p (x :: cur) s.
Proof. done. Qed.

Lemma words_collapse (cur s : js_string) :
  split_when is_space cur (replace_all re_spaces [SPACE] s)
  = split_when is_space cur s.
Proof.
  remember (length s) as n eqn:Hn. revert cur s Hn.
  induction n as [n IH] using lt_wf_ind. intros cur [|x s] Hn; [done|].
  simpl in Hn. rewrite collapse_cons.
  destruct (is_space x) eqn:E; rewrite !split_when_cons, ?E.
  - change (is_space SPACE) with true. cbv iota.
    pose proof (drop_ws_len_length s).
    rewrite (IH (length (drop (ws_len s) s))) by (done || lia).
    by rewrite split_when_skip.
  - eapply IH; [|done]. lia.
Qed.

Lemma split_when_nonempty (p : N -> bool) (cur s : js_string) :
  cur <> [] -> split_when p cur s <> [].
Proof.
  revert cur. induction s as [|x s IH]; intros cur Hc; simpl.
  - by destruct cur.
  - destruct (p x); [by destruct cur|]. by apply IH.
Qed.

Lemma ends_nonspace_tail (x : N) (s : js_string) :
  starts_nonspace (rev (x :: s)) -> starts_nonspace (rev s).
Proof.
  simpl. destruct (rev s) as [|y r] eqn:E; [done|]. done.
Qed.

Lemma join_words (cur t : js_string) :
  single_spaced t -> starts_nonspace (rev t) ->
  (cur = [] -> starts_nonspace t) ->
  join_with_space (split_when is_space cur t) = rev cur ++ t.
Proof.
  revert cur. induction t as [|x t IH]; intros cur Hs He Hc.
  - simpl. destruct cur as [|c cur]; [done|]. by rewrite app_nil_r.
  - destruct Hs as [Hx Hs]. apply ends_nonspace_tail in He as He'.
    simpl. destruct (is_space x) eqn:E.
    + destruct (Hx eq_refl) as [-> Hn].
      destruct cur as [|c cur]; [by rewrite Hc in E|].
      destruct t as [|y t].
      { simpl in He. by rewrite He in E. }
      specialize (IH [] Hs He' (fun _ => Hn)). simpl in IH.
      simpl in Hn. simpl split_when at 1. rewrite Hn.
      simpl split_when in IH. rewrite Hn in IH.
      destruct (split_when is_space [y] t) as [|w l] eqn:Ew;
        [by apply split_when_nonempty in Ew|].
      change (join_with_space (rev (c :: cur) :: w :: l))
        with (rev (c :: cur) ++ SPACE :: join_with_space (w :: l)).
      by rewrite IH.
    + rewrite (IH (x :: cur)) by done. simpl. by rewrite <- app_assoc.
Qed.

Lemma join_words_cleaned (t : js_string) :
  cleaned t -> join_with_space (words t) = t.
Proof.
  intros (Hs & Hh & He). unfold words. by rewrite join_words.
Qed.

(** X16. [cleanText] returns the words of the text, once the empty
    pairs of parentheses are taken out, joined by single spaces; for a text
    without opening parenthesis these are the words of the text itself. *)
Theorem cleanText_words (s : js_string) :
  cleanText s
  = join_with_space (words (replace_all re_empty_parens [] s))
  /\ (~ In LPAREN s -> cleanText s = join_with_space (words s)).
Proof.
  assert (H : cleanText s
              = join_with_space (words (replace_all re_empty_parens [] s))).
  { rewrite <- (join_words_cleaned (cleanText s)) by apply cleanText_cleaned.
    f_equal. rewrite cleanText_passes. unfold trim.
    rewrite words_trimEnd, words_trimStart. apply words_collapse. }
  split; [done|]. intros Hs. rewrite H.
  by rewrite replace_all_no_match by by apply no_lparen_no_match.
Qed.

Lemma cleanText_words_witness :
  cleanText ([9] ++ js "two  words" ++ [LF; LF; LF] ++ js "more) ")
  = join_with_space (words ([9] ++ js "two  words" ++ [LF; LF; LF] ++ js "more) ")).
Proof.
  apply (proj2 (cleanText_words
                  ([9] ++ js "two  words" ++ [LF; LF; LF] ++ js "more) "))).
  vm_compute. intros H.
  repeat (destruct H as [H|H]; [discriminate H|]). exact H.
Defined.

(** ** The document after the removal, and the title *)

Lemma filter_nothing {A} (f : A -> bool) (l : list A) :
  Forall (fun x => f x = false) l -> List.filter f l = [].
Proof.
  induction 1 as [|x l Hx _ IH]; [done|]. simpl. by rewrite Hx.
Qed.

(** X17. After the removal loop the document holds no element that the
    unwanted selector matches. *)
Theorem unwanted_all_removed (m : matcher) (sel : selector) (d : Document) :
  querySelectorAll m sel (remove_all m sel d) = [].
Proof.
  unfold querySelectorAll. apply filter_nothing.
  apply List.Forall_forall. intros e He.
  by apply (remove_all_free m sel d).
Qed.

(** X18. On the fallback path the title of a returned result is never
    empty. *)
Theorem fallback_title_not_empty (L : Libraries) (page : Page)
    (url : js_string) (h : store) (finalUrl html : js_string)
    (r : ExtractionResult) :
  page url = Loaded finalUrl html ->
  fst (primary L finalUrl html) = None ->
  fst (extractContent L page url h) = Returned r ->
  title r <> [].
Proof.
  intros Hp Hnull Hr.
  rewrite (extractContent_run L _ _ _ _ _ Hp) in Hr. simpl in Hr.
  unfold quality_gate, title_and_content in Hr. rewrite Hnull in Hr.
  simpl in Hr. destruct (_ <? _)%nat; [done|]. injection Hr as <-. simpl.
  unfold title_or_untitled. by destruct (document_title _).
Qed.

Lemma fallback_title_not_empty_witness :
  title {| finalUrl := Samples.url; title := js "Untitled";
           content := Samples.filler 120 |} <> [].
Proof.
  apply (fallback_title_not_empty Samples.libs_article Samples.page_article
           Samples.url ∅ Samples.url Samples.html_article).
  - reflexivity.
  - reflexivity.
  - vm_compute. reflexivity.
Defined.

(** ** The fallback in terms of the parsed page *)

Lemma elements_of_removed (p : node -> bool) (n : node) :
  (forall x, p (remove_matching p x) = p x) ->
  (if p n then [] else elements_of (remove_matching p n))
  = map (remove_matching p) (kept_elements p n).
Proof.
  intros Hp.
  induction n as [data|data|ns name attrs children IH] using node_ind.
  - simpl. by destruct (p (Text data)).
  - simpl. by destruct (p (Comment data)).
  - cbn [kept_elements].
    destruct (p (Element ns name attrs children)); [done|].
    cbn [remove_matching elements_of map]. f_equal.
    induction IH as [|c children Hc _ IHc]; [done|].
    cbn [flat_map]. rewrite flat_map_app, map_app, <- IHc, <- Hc.
    f_equal. destruct (p c); [done|]. simpl. by rewrite app_nil_r.
Qed.

Lemma document_elements_removed (m : matcher) (sel : selector) (d : Document) :
  document_elements (remove_all m sel d)
  = map (remove_matching (matches m (quirks d) sel))
      (kept_document_elements (matches m (quirks d) sel) d).
Proof.
  unfold document_elements, kept_document_elements, remove_all. simpl.
  induction (doc_childNodes d) as [|c l IH]; [done|].
  cbn [flat_map]. rewrite flat_map_app, map_app, <- IH. f_equal.
  rewrite <- elements_of_removed by (intros x; apply matches_remove_matching).
  destruct (matches m (quirks d) sel c); [done|]. simpl. by rewrite app_nil_r.
Qed.

Lemma descendant_text_removed (p : node -> bool) (n : node) :
  descendant_text (remove_matching p n) = kept_text p n.
Proof.
  induction n as [| |ns name attrs children IH] using node_ind; try done.
  cbn [remove_matching descendant_text kept_text].
  induction IH as [|c children Hc _ IHc]; [done|].
  cbn [flat_map]. rewrite flat_map_app, IHc. f_equal.
  destruct (p c); [done|]. simpl. by rewrite app_nil_r.
Qed.

Lemma head_filter_find {A} (f : A -> bool) (l : list A) :
  head (List.filter f l) = List.find f l.
Proof.
  induction l as [|x l IH]; [done|]. simpl. by destruct (f x).
Qed.

Lemma find_map {A B} (f : B -> bool) (g : A -> B) (l : list A) :
  List.find f (map g l) = option_map g (List.find (fun x => f (g x)) l).
Proof.
  induction l as [|x l IH]; [done|]. simpl. by destruct (f (g x)).
Qed.

Lemma find_ext {A} (f g : A -> bool) (l : list A) :
  (forall x, f x = g x) -> List.find f l = List.find g l.
Proof.
  intros H. induction l as [|x l IH]; [done|]. simpl. by rewrite H, IH.
Qed.

(** [querySelector] after the removal, read on the page as parsed. *)
Lemma querySelector_removed (L : Libraries) (sel : selector) (d : Document) :
  querySelector (selector_first L) sel (remove_all (selector_all L) unwanted d)
  = option_map (remove_matching (matches (selector_all L) (quirks d) unwanted))
      (List.find (matches (selector_first L) (quirks d) sel)
         (kept_document_elements
            (matches (selector_all L) (quirks d) unwanted) d)).
Proof.
  unfold querySelector. rewrite head_filter_find, document_elements_removed.
  rewrite find_map. f_equal. apply find_ext. intros x.
  apply matches_remove_matching.
Qed.

Lemma kept_elements_are_elements (p : node -> bool) (n e : node) :
  In e (kept_elements p n) -> is_element e = true.
Proof.
  induction n as [| |ns name attrs children IH] using node_ind; simpl; try done.
  destruct (p _); [done|]. intros [<-|H]; [done|].
  apply in_flat_map in H as (c & Hc & He).
  rewrite List.Forall_forall in IH. by apply (IH c).
Qed.

Lemma find_kept_element (p f : node -> bool) (d : Document) (e : node) :
  List.find f (kept_document_elements p d) = Some e -> is_element e = true.
Proof.
  intros H. apply find_some in H as [H _].
  apply in_flat_map in H as (c & _ & He).
  by apply (kept_elements_are_elements p c).
Qed.

Lemma textContent_removed (p : node -> bool) (e : node) :
  is_element e = true ->
  textContent (remove_matching p e) = kept_text p e.
Proof.
  intros He. rewrite textContent_element by (by destruct e).
  apply descendant_text_removed.
Qed.

Lemma plain_length (t : js_string) :
  (length (List.filter is_plain t) <= length (cleanText t))%nat.
Proof.
  rewrite <- cleanText_plain. apply filter_length_le.
Qed.

(** ** The fallback: the selected root and its text *)

(** C5, as stated.  Three pages on which Readability finds no article
    and which hold a [main] or an [article] with at least 100 characters of
    text, and yet the call fails: a short [main] comes before the long
    [article] and is the root selected; the text of the [main] sits in an
    [aside], which is removed; the text of the [main] is sixty empty pairs
    of parentheses, which cleaning removes. *)
Lemma long_text_yet_insufficient :
  ((exists e,
       In e (document_elements
               (jsdom_parse Samples.libs_main_first Samples.html_main_first
                  Samples.url))
       /\ local_name e = js "article"
       /\ (100 <= length (textContent e))%nat)
   /\ fst (primary Samples.libs_main_first Samples.url Samples.html_main_first)
      = None
   /\ fst (extractContent Samples.libs_main_first Samples.page_main_first
             Samples.url ∅)
      = Thrown (insufficient_content 2))
  /\ ((exists e,
          In e (document_elements Samples.doc_text_in_aside)
          /\ local_name e = js "main"
          /\ (100 <= length (textContent e))%nat)
      /\ fst (extractContent
                (Samples.libs_without_article Samples.doc_text_in_aside)
                (fun _ => Loaded Samples.url Samples.html_text_in_aside)
                Samples.url ∅)
         = Thrown (insufficient_content 0))
  /\ ((exists e,
          In e (document_elements Samples.doc_parens)
          /\ local_name e = js "main"
          /\ (100 <= length (textContent e))%nat)
      /\ fst (extractContent
                (Samples.libs_without_article Samples.doc_parens)
                (fun _ => Loaded Samples.url Samples.html_parens)
                Samples.url ∅)
         = Thrown (insufficient_content 0)).
Proof.
  split; [|split].
  - split; [|split; reflexivity].
    exists (Samples.el "article" Samples.hidden [Text (Samples.filler 120)]).
    split; [|split; [reflexivity|vm_compute; lia]].
    vm_compute. do 5 right. left. reflexivity.
  - split; [|reflexivity].
    exists (Samples.el "main" Samples.hidden
              [Samples.el "aside" [] [Text (Samples.filler 120)]]).
    split; [|split; [reflexivity|vm_compute; lia]].
    vm_compute. do 4 right. left. reflexivity.
  - split; [|reflexivity].
    exists (Samples.el "main" Samples.hidden [Text (Samples.parens 60)]).
    split; [|split; [reflexivity|vm_compute; lia]].
    vm_compute. do 4 right. left. reflexivity.
Qed.

(** C5, amended.  Readability finds no article.  Among the elements of
    the parsed page that lie outside the unwanted elements, take the first
    [main] in tree order, or the first [article] when there is no [main].
    If its text outside the unwanted elements holds at least 100 code units
    that are neither whitespace nor parentheses, the call succeeds and
    returns exactly that text, cleaned: the text inside the removed
    elements is no part of it. *)
Theorem fallback_returns_text_outside_chrome (L : Libraries) (page : Page)
    (url : js_string) (h : store) (finalUrl html : js_string) (root : node) :
  page url = Loaded finalUrl html ->
  fst (primary L finalUrl html) = None ->
  let d := jsdom_parse L html finalUrl in
  let chrome := matches (selector_all L) (quirks d) unwanted in
  let kept := kept_document_elements chrome d in
  let first_of name :=
    List.find (matches (selector_first L) (quirks d) [SelType name]) kept in
  (first_of (js "main") = Some root
   \/ (first_of (js "main") = None /\ first_of (js "article") = Some root)) ->
  (MIN_CONTENT_LENGTH
   <= length (List.filter is_plain (kept_text chrome root)))%nat ->
  fst (extractContent L page url h)
  = Returned {| finalUrl := finalUrl;
                title := title_or_untitled (snd (primary L finalUrl html));
                content := cleanText (kept_text chrome root) |}.
Proof.
  intros Hp Hnull d chrome kept first_of Hroot Hlen.
  rewrite (extractContent_run L _ _ _ _ _ Hp). simpl.
  unfold quality_gate, title_and_content. rewrite Hnull. simpl.
  assert (Hel : is_element root = true).
  { destruct Hroot as [H|[_ H]]; by apply find_kept_element in H. }
  assert (Hr : fallback_root L html finalUrl
               = Some (remove_matching chrome root)).
  { unfold fallback_root, mainContent. fold d.
    rewrite !querySelector_removed. fold chrome kept.
    fold (first_of (js "main")) (first_of (js "article")).
    destruct Hroot as [->|[-> ->]]; done. }
  unfold fallback_text. rewrite Hr, (textContent_removed _ _ Hel).
  pose proof (plain_length (kept_text chrome root)) as Hplain.
  assert (E : (length (cleanText (kept_text chrome root))
               <? MIN_CONTENT_LENGTH)%nat = false)
    by (apply Nat.ltb_ge; lia).
  by rewrite E.
Qed.

Lemma fallback_returns_text_outside_chrome_witness :
  fst (extractContent (Samples.libs_without_article Samples.doc_main_with_nav)
         (fun _ => Loaded Samples.url Samples.html_main_with_nav)
         Samples.url ∅)
  = Returned {| finalUrl := Samples.url;
                title := js "T";
                content :=
                  Samples.filler 60 ++ [SPACE] ++ Samples.filler 60 |}.
Proof.
  rewrite (fallback_returns_text_outside_chrome
             (Samples.libs_without_article Samples.doc_main_with_nav)
             (fun _ => Loaded Samples.url Samples.html_main_with_nav)
             Samples.url ∅ Samples.url Samples.html_main_with_nav
             Samples.main_with_nav).
  - vm_compute. reflexivity.
  - reflexivity.
  - reflexivity.
  - left. vm_compute. reflexivity.
  - vm_compute. lia.
Defined.

Lemma first_present_exists {A} (l : list (option A)) :
  exists r, first_present l r.
Proof.
  induction l as [|[a|] l [r IH]].
  - exists None. constructor.
  - exists (Some a). constructor.
  - exists r. by constructor.
Qed.

(** C6.  In the document left by the removal of the unwanted elements,
    the candidates are, in this order: the first [main] element in tree
    order, the first [article] element, the first element with [role=main],
    the first element of class [content], the first element with id
    [content], and the body.  The first candidate that is present is the
    root: [fallbackExtraction] returns its text, cleaned, and the empty text
    when no candidate is present. *)
Theorem main_content_selection_order (L : Libraries) (html url : js_string)
    (h : store) :
  let doc := remove_all (selector_all L) unwanted (jsdom_parse L html url) in
  let first_matching sel :=
    List.find (matches (selector_first L) (quirks doc) sel)
      (document_elements doc) in
  let candidates :=
    [first_matching [SelType (js "main")];
     first_matching [SelType (js "article")];
     first_matching [SelAttr (js "role") (js "main")];
     first_matching [SelClass (js "content")];
     first_matching [SelId (js "content")];
     body doc] in
  (exists root, first_present candidates root)
  /\ forall root,
      first_present candidates root ->
      fst (fallbackExtraction L html url h)
      = Returned (cleanText match root with
                            | Some el => textContent el
                            | None => []
                            end).
Proof.
  intros doc first_matching candidates.
  split; [apply first_present_exists|].
  assert (Hmain : first_present candidates (mainContent L doc)).
  { unfold mainContent, querySelector. rewrite !head_filter_find.
    do 5 apply or_else_first_present.
    destruct (body doc); repeat constructor. }
  intros root Hroot. rewrite fallbackExtraction_run. simpl.
  unfold fallback_text, fallback_root. fold doc.
  clearbody candidates. clear first_matching.
  revert Hmain. generalize (mainContent L doc). intros r Hr.
  induction Hroot; inversion Hr; subst; auto.
Qed.

Lemma main_content_selection_order_witness :
  fst (fallbackExtraction (Samples.libs_without_article (Samples.candidates_page 6))
         (Samples.candidates_html 6) Samples.url ∅)
  = Returned (js "the main")
  /\ fst (fallbackExtraction (Samples.libs_without_article (Samples.candidates_page 4))
            (Samples.candidates_html 4) Samples.url ∅)
     = Returned (js "the article")
  /\ fst (fallbackExtraction (Samples.libs_without_article (Samples.candidates_page 3))
            (Samples.candidates_html 3) Samples.url ∅)
     = Returned (js "by role")
  /\ fst (fallbackExtraction (Samples.libs_without_article (Samples.candidates_page 2))
            (Samples.candidates_html 2) Samples.url ∅)
     = Returned (js "by class")
  /\ fst (fallbackExtraction (Samples.libs_without_article (Samples.candidates_page 1))
            (Samples.candidates_html 1) Samples.url ∅)
     = Returned (js "by id")
  /\ fst (fallbackExtraction (Samples.libs_without_article (Samples.candidates_page 0))
            (Samples.candidates_html 0) Samples.url ∅)
     = Returned (js "tail").
Proof.
  split; [|split; [|split; [|split; [|split]]]].
  - refine (eq_trans
              (proj2 (main_content_selection_order
                        (Samples.libs_without_article (Samples.candidates_page 6))
                        (Samples.candidates_html 6) Samples.url ∅)
                 (Some (Samples.el "main" [] [Text (js "the main")])) _) _);
      [vm_compute; repeat constructor|reflexivity].
  - refine (eq_trans
              (proj2 (main_content_selection_order
                        (Samples.libs_without_article (Samples.candidates_page 4))
                        (Samples.candidates_html 4) Samples.url ∅)
                 (Some (Samples.el "article" [] [Text (js "the article")])) _) _);
      [vm_compute; repeat constructor|reflexivity].
  - refine (eq_trans
              (proj2 (main_content_selection_order
                        (Samples.libs_without_article (Samples.candidates_page 3))
                        (Samples.candidates_html 3) Samples.url ∅)
                 (Some (Samples.el "div" [Samples.attr "role" "main"]
                          [Text (js "by role")])) _) _);
      [vm_compute; repeat constructor|reflexivity].
  - refine (eq_trans
              (proj2 (main_content_selection_order
                        (Samples.libs_without_article (Samples.candidates_page 2))
                        (Samples.candidates_html 2) Samples.url ∅)
                 (Some (Samples.el "div" [Samples.attr "class" "content"]
                          [Text (js "by class")])) _) _);
      [vm_compute; repeat constructor|reflexivity].
  - refine (eq_trans
              (proj2 (main_content_selection_order
                        (Samples.libs_without_article (Samples.candidates_page 1))
                        (Samples.candidates_html 1) Samples.url ∅)
                 (Some (Samples.el "div" [Samples.attr "id" "content"]
                          [Text (js "by id")])) _) _);
      [vm_compute; repeat constructor|reflexivity].
  - refine (eq_trans
              (proj2 (main_content_selection_order
                        (Samples.libs_without_article (Samples.candidates_page 0))
                        (Samples.candidates_html 0) Samples.url ∅)
                 (Some (Samples.el "body" [] [Text (js " tail")])) _) _);
      [vm_compute; repeat constructor|reflexivity].
Defined.

(** ** The title *)

(** C7.  A page without [title] element (so that [document.title] is
    empty) whose article Readability returns with an empty title: nothing
    yields a title, the call succeeds, and the title of the result is the
    empty string, not ["Untitled"].  On the page of [Samples.doc_article],
    also without [title] element but where Readability finds no article,
    the title is ["Untitled"]: the default is applied on that path only. *)
Theorem untitled_default_only_without_article :
  title_element Samples.doc_untitled = None
  /\ document_title Samples.doc_untitled = []
  /\ fst (primary Samples.libs_untitled Samples.url Samples.html_untitled)
     = Some {| article_title := [];
               article_content := article_content Samples.article_untitled |}
  /\ fst (extractContent Samples.libs_untitled Samples.page_untitled
            Samples.url ∅)
     = Returned {| finalUrl := Samples.url; title := [];
                   content := Samples.filler 600 |}
  /\ title_element Samples.doc_article = None
  /\ fst (primary Samples.libs_article Samples.url Samples.html_article) = None
  /\ fst (extractContent Samples.libs_article Samples.page_article
            Samples.url ∅)
     = Returned {| finalUrl := Samples.url; title := js "Untitled";
                   content := Samples.filler 120 |}.
Proof. repeat split; vm_compute; reflexivity. Qed.

(** X19. When Readability finds no article, the title of a returned
    result is read from the first [title] element of the document: it is
    the text of that element with ASCII whitespace stripped at both ends
    and collapsed inside, and it is ["Untitled"] when that text is empty
    or when the document has no [title] element. *)
Theorem fallback_title_read_from_document (L : Libraries) (page : Page)
    (url : js_string) (h : store) (finalUrl html : js_string)
    (r : ExtractionResult) :
  page url = Loaded finalUrl html ->
  fst (primary L finalUrl html) = None ->
  fst (extractContent L page url h) = Returned r ->
  match title_element (snd (primary L finalUrl html)) with
  | Some t =>
      title r = match strip_and_collapse (child_text_content t) with
                | [] => js "Untitled"
                | text => text
                end
  | None => title r = js "Untitled"
  end.
Proof.
  intros Hp Hnull Hr.
  rewrite (extractContent_run L _ _ _ _ _ Hp) in Hr. simpl in Hr.
  unfold quality_gate, title_and_content in Hr. rewrite Hnull in Hr.
  simpl in Hr. destruct (_ <? _)%nat; [done|]. injection Hr as <-. simpl.
  unfold title_or_untitled, document_title.
  by destruct (title_element _).
Qed.

Lemma fallback_title_read_from_document_witness :
  fst (extractContent (Samples.libs_without_article Samples.doc_titled)
         (fun _ => Loaded Samples.url Samples.html_titled) Samples.url ∅)
  = Returned {| finalUrl := Samples.url; title := js "Web scraping";
                content := Samples.filler 120 |}
  /\ title {| finalUrl := Samples.url; title := js "Web scraping";
              content := Samples.filler 120 |}
     = match strip_and_collapse (js "  Web   scraping ") with
       | [] => js "Untitled"
       | text => text
       end.
Proof.
  split; [vm_compute; reflexivity|].
  apply (fallback_title_read_from_document
           (Samples.libs_without_article Samples.doc_titled)
           (fun _ => Loaded Samples.url Samples.html_titled)
           Samples.url ∅ Samples.url Samples.html_titled
           {| finalUrl := Samples.url; title := js "Web scraping";
              content := Samples.filler 120 |}).
  - reflexivity.
  - reflexivity.
  - vm_compute. reflexivity.
Defined.
